(** * Horizon history: effects query builder (effect.go)

  A shallow embedding of
  [services/horizon/internal/db2/history/effect.go]: the [Effect] record
  helpers ([ID], [PagingToken], [LedgerSequence], [UnmarshalDetails]) and
  the [EffectsQ] builder ([ForAccount], [ForLedger], [ForOperation],
  [ForLiquidityPool], [ForTransaction], [Page], [Select]).

  Go integers are [Z] with the wrap-around written out where the source
  does arithmetic on them; Go strings are [string] (bytes as [ascii]);
  the storage handle [*Q] is a record of lookup functions and every call
  made on it is appended to a log, so that "no query was issued" is a
  statement about that log. *)

From Stdlib Require Import ZArith List String Ascii Bool Lia.
Import ListNotations.

Local Open Scope list_scope.
Local Open Scope string_scope.
Local Open Scope Z_scope.

(* ================================================================== *)
(** ** Go fixed-width integers *)

Module GoInt.

Definition MaxInt32 : Z := 2147483647.
Definition MinInt32 : Z := -2147483648.
Definition MaxInt64 : Z := 9223372036854775807.
Definition MinInt64 : Z := -9223372036854775808.

Definition is_int32 (z : Z) : Prop := MinInt32 <= z <= MaxInt32.
Definition is_int64 (z : Z) : Prop := MinInt64 <= z <= MaxInt64.

(** Two's complement wrap-around of a signed [w]-bit integer. *)
Definition wrap (w : Z) (z : Z) : Z :=
  (z + 2 ^ (w - 1)) mod 2 ^ w - 2 ^ (w - 1).

(** [x + y] and [x++] on an [int32]. *)
Definition add32 (x y : Z) : Z := wrap 32 (x + y).

End GoInt.

(* ================================================================== *)
(** ** fmt.Sprintf, the verbs the source uses: [%d], [%019d], [%010d], [%s] *)

Module fmt.

Definition digit (d : Z) : ascii := ascii_of_N (48 + Z.to_N d).

(** The digit loop of the integer formatter: the least significant digit
    is written first, at the end of the buffer, while [u >= 10]; the last
    digit written is the most significant one. *)
Fixpoint fmtDigits (fuel : nat) (u : Z) (buf : string) : string :=
  match fuel with
  | O => buf
  | S fuel' =>
      if u <? 10 then String (digit u) buf
      else fmtDigits fuel' (u / 10) (String (digit (u mod 10)) buf)
  end.

(** Decimal digits of [u >= 0]. A number has at most [log2 u + 1] decimal
    digits, so the loop is always given enough iterations. *)
Definition itoa (u : Z) : string :=
  fmtDigits (S (Z.to_nat (Z.log2 u))) u "".

Fixpoint zeros (n : nat) : string :=
  match n with
  | O => ""
  | S n' => String "0" (zeros n')
  end.

Definition padLeft0 (width : nat) (s : string) : string :=
  zeros (width - String.length s) ++ s.

(** [%d]: sign, then the digits. *)
Definition verb_d (n : Z) : string :=
  if n <? 0 then String "-" (itoa (- n)) else itoa n.

(** [%0Wd]: the digits are padded with zeros to [W] characters; a sign
    takes one of the [W] characters. *)
Definition verb_0d (W : nat) (n : Z) : string :=
  if n <? 0 then String "-" (padLeft0 (W - 1) (itoa (- n)))
  else padLeft0 W (itoa n).

(** The [w] low decimal digits of [n], most significant first: what the
    padded verbs print for a number that fits the width. *)
Fixpoint fixedDigits (w : nat) (n : Z) : string :=
  match w with
  | O => ""
  | S w' => String (digit (n / 10 ^ Z.of_nat w' mod 10)) (fixedDigits w' n)
  end.

End fmt.

(* ================================================================== *)
(** ** errors (github.com/stellar/go/support/errors) *)

Module errors.

Inductive error : Type :=
| New (msg : string)
| Wrapped (cause : error) (msg : string).

(** [errors.Wrap(err, msg)] is nil when [err] is nil. *)
Definition Wrap (err : option error) (msg : string) : option error :=
  match err with
  | None => None
  | Some e => Some (Wrapped e msg)
  end.

(** [errors.Errorf("invalid paging order: %s", order)]. *)
Definition Errorf_invalid_paging_order (order : string) : error :=
  New ("invalid paging order: " ++ order).

End errors.

Definition error : Type := errors.error.

(** A Go result [(v, err)]: either the error or the value. *)
Definition result (A : Type) : Type := (error + A)%type.

(* ================================================================== *)
(** ** toid: the composite ordering key (github.com/stellar/go/toid) *)

Module toid.

(** The three [int32] components of a total-order id. *)
Record ID : Type := mkID {
  LedgerSequence : Z;
  TransactionOrder : Z;
  OperationOrder : Z
}.

(** The functions of the package that the source calls. The package is
    consumed as an opaque codec: the builder is defined over any value of
    this record, and each theorem names the laws of the codec it needs. *)
Record Codec : Type := mkCodec {
  Parse : Z -> ID;
  ToInt64 : ID -> Z;
  IncOperationOrder : ID -> ID
}.

(** Chronological order on ids: lexicographic on
    (ledger, transaction, operation). *)
Definition lex_lt (a b : ID) : Prop :=
  LedgerSequence a < LedgerSequence b \/
  (LedgerSequence a = LedgerSequence b /\
   (TransactionOrder a < TransactionOrder b \/
    (TransactionOrder a = TransactionOrder b /\
     OperationOrder a < OperationOrder b))).

(** Keys: the non-negative [int64]. *)
Definition isKey (k : Z) : Prop := 0 <= k <= GoInt.MaxInt64.

(** The contract of the codec: [Parse] and [ToInt64] are inverse on keys,
    integer comparison of keys is chronological comparison of their ids,
    and the transaction and operation orders of a key are not negative. *)
Record Laws (c : Codec) : Prop := mkLaws {
  parse_ToInt64 : forall k, isKey k -> ToInt64 c (Parse c k) = k;
  order_preserved : forall k1 k2, isKey k1 -> isKey k2 ->
    (k1 < k2 <-> lex_lt (Parse c k1) (Parse c k2));
  fields_nonneg : forall k, isKey k ->
    0 <= TransactionOrder (Parse c k) /\ 0 <= OperationOrder (Parse c k)
}.

(** The ids of keys. *)
Definition inDomain (c : Codec) (x : ID) : Prop :=
  exists k, isKey k /\ Parse c k = x.

(** Modelled from the spec: package toid is not among the sources. The
    spec describes the key as a 64-bit integer that encodes
    (ledgerSequence, transactionOrder, operationOrder) so that integer
    comparison is chronological comparison, with [parse], [toInteger] and
    an increment of the operation order. The instance below is one such
    encoding (32, 20 and 12 bits); it is used to run the builder on
    concrete inputs. *)
Definition LedgerMask : Z := 2 ^ 32 - 1.
Definition TransactionMask : Z := 2 ^ 20 - 1.
Definition OperationMask : Z := 2 ^ 12 - 1.
Definition LedgerShift : Z := 32.
Definition TransactionShift : Z := 12.
Definition OperationShift : Z := 0.

Definition packedParse (id : Z) : ID :=
  {| LedgerSequence := GoInt.wrap 32 (Z.land (Z.shiftr id LedgerShift) LedgerMask);
     TransactionOrder := Z.land (Z.shiftr id TransactionShift) TransactionMask;
     OperationOrder := Z.land (Z.shiftr id OperationShift) OperationMask |}.

Definition packedToInt64 (id : ID) : Z :=
  Z.lor (Z.shiftl (Z.land (LedgerSequence id) LedgerMask) LedgerShift)
    (Z.lor (Z.shiftl (Z.land (TransactionOrder id) TransactionMask) TransactionShift)
           (Z.shiftl (Z.land (OperationOrder id) OperationMask) OperationShift)).

Definition packedIncOperationOrder (id : ID) : ID :=
  let op := GoInt.add32 (OperationOrder id) 1 in
  if op >? OperationMask
  then {| LedgerSequence := GoInt.add32 (LedgerSequence id) 1;
          TransactionOrder := TransactionOrder id;
          OperationOrder := 0 |}
  else {| LedgerSequence := LedgerSequence id;
          TransactionOrder := TransactionOrder id;
          OperationOrder := op |}.

Definition packed : Codec :=
  {| Parse := packedParse;
     ToInt64 := packedToInt64;
     IncOperationOrder := packedIncOperationOrder |}.

End toid.

(* ================================================================== *)
(** ** db2: page queries and cursors *)

Module db2.

(** [db2.PageQuery]: the cursor token, the direction and the limit
    ([uint64]) of a page request. *)
Record PageQuery : Type := mkPageQuery {
  Cursor : string;
  Order : string;
  Limit : Z
}.

(** The type of [PageQuery.CursorInt64Pair]: the cursor as two [int64],
    or an error. The method is not among the sources; [Page] and
    [ForLiquidityPool] are defined over any function of this type. *)
Definition CursorDecoder : Type := PageQuery -> string -> result (Z * Z).

(** Modelled from the spec: the constant [db2.DefaultPairSep] is not among
    the sources; the paging token uses "-" as separator. *)
Definition DefaultPairSep : string := "-".

Definition ErrMalformedCursor : error := errors.New "MalformedCursor".

Definition digitVal (c : ascii) : option Z :=
  let n := Z.of_N (N_of_ascii c) in
  if (48 <=? n) && (n <=? 57) then Some (n - 48) else None.

Fixpoint parseDigits (s : string) (acc : Z) : option Z :=
  match s with
  | EmptyString => Some acc
  | String c s' =>
      match digitVal c with
      | Some d => parseDigits s' (acc * 10 + d)
      | None => None
      end
  end.

(** A decimal integer field: an optional minus sign and at least one
    digit, with a value that fits an [int64]. *)
Definition parseField (s : string) : option Z :=
  match s with
  | EmptyString => None
  | String "-" EmptyString => None
  | String "-" s' =>
      match parseDigits s' 0 with
      | Some v => if v <=? - GoInt.MinInt64 then Some (- v) else None
      | None => None
      end
  | _ =>
      match parseDigits s 0 with
      | Some v => if v <=? GoInt.MaxInt64 then Some v else None
      | None => None
      end
  end.

Fixpoint drop (n : nat) (s : string) : string :=
  match n, s with
  | O, _ => s
  | S n', String _ s' => drop n' s'
  | S _, EmptyString => EmptyString
  end.

(** Looks for a place where [s] continues with [sep] such that what
    precedes it ([pre] and the part of [s] already passed) and what
    follows it are both integer fields. *)
Fixpoint splitFields (sep : string) (pre s : string) : option (Z * Z) :=
  match s with
  | EmptyString => None
  | String c s' =>
      let here :=
        if String.prefix sep s then
          match parseField pre, parseField (drop (String.length sep) s) with
          | Some l, Some r => Some (l, r)
          | _, _ => None
          end
        else None in
      match here with
      | Some lr => Some lr
      | None => splitFields sep (pre ++ String c EmptyString) s'
      end
  end.

(** Modelled from the spec: [PageQuery.CursorInt64Pair] is not among the
    sources. [decode(token, separator)] returns the two integers of the
    token and fails with MalformedCursor if the token is not exactly two
    integer fields joined by the separator. *)
Definition CursorInt64Pair : CursorDecoder :=
  fun p sep =>
    match splitFields sep EmptyString (Cursor p) with
    | Some lr => inr lr
    | None => inl ErrMalformedCursor
    end.

End db2.

(* ================================================================== *)
(** ** Rows of history_effects *)

Record NullString : Type := mkNullString {
  String' : string;
  Valid : bool
}.

(** [Effect]: a row of [history_effects] ([HistoryOperationID] is an
    [int64], [Order] an [int32]). *)
Record Effect : Type := mkEffect {
  HistoryAccountID : Z;
  HistoryOperationID : Z;
  Order : Z;
  DetailsString : NullString
}.

(* ================================================================== *)
(** ** squirrel: the select builder (github.com/Masterminds/squirrel) *)

Module sq.

(** The columns of [history_effects heff] that the predicates mention. *)
Inductive column : Type :=
| history_account_id
| history_operation_id
| order.

Inductive cmpOp : Type := OpEq | OpGt | OpGe | OpLt | OpLe.

(** A predicate text with [?] placeholders: [Cmp c o] is ["heff.c o ?"];
    the placeholders are bound to the arguments from left to right. *)
Inductive cond : Type :=
| Cmp (c : column) (o : cmpOp)
| And (a b : cond)
| Or (a b : cond).

(** An argument of [Where]: a predicate text with its arguments, or a map
    from a column to a list of values (membership; false on the empty
    list). *)
Inductive wherePart : Type :=
| Expr (sql : cond) (args : list Z)
| EqList (c : column) (vals : list Z).

Inductive direction : Type := asc | desc.

Record SelectBuilder : Type := mkSelectBuilder {
  Columns : list string;
  FromTable : string;
  Joins : list string;
  WhereParts : list wherePart;
  OrderBys : list (column * direction);
  LimitOf : option Z
}.

(** The builder is persistent: every method returns a new builder. *)
Definition Select (columns : string) : SelectBuilder :=
  {| Columns := [columns]; FromTable := ""; Joins := [];
     WhereParts := []; OrderBys := []; LimitOf := None |}.

Definition From (b : SelectBuilder) (from : string) : SelectBuilder :=
  {| Columns := Columns b; FromTable := from; Joins := Joins b;
     WhereParts := WhereParts b; OrderBys := OrderBys b;
     LimitOf := LimitOf b |}.

Definition LeftJoin (b : SelectBuilder) (join : string) : SelectBuilder :=
  {| Columns := Columns b; FromTable := FromTable b;
     Joins := (Joins b ++ [("LEFT JOIN " ++ join)%string])%list;
     WhereParts := WhereParts b; OrderBys := OrderBys b;
     LimitOf := LimitOf b |}.

Definition Where (b : SelectBuilder) (p : wherePart) : SelectBuilder :=
  {| Columns := Columns b; FromTable := FromTable b; Joins := Joins b;
     WhereParts := (WhereParts b ++ [p])%list; OrderBys := OrderBys b;
     LimitOf := LimitOf b |}.

Definition OrderBy (b : SelectBuilder) (terms : list (column * direction))
  : SelectBuilder :=
  {| Columns := Columns b; FromTable := FromTable b; Joins := Joins b;
     WhereParts := WhereParts b; OrderBys := (OrderBys b ++ terms)%list;
     LimitOf := LimitOf b |}.

Definition Limit (b : SelectBuilder) (limit : Z) : SelectBuilder :=
  {| Columns := Columns b; FromTable := FromTable b; Joins := Joins b;
     WhereParts := WhereParts b; OrderBys := OrderBys b;
     LimitOf := Some limit |}.

(** *** Meaning of the predicates on a row *)

Definition colVal (c : column) (r : Effect) : Z :=
  match c with
  | history_account_id => HistoryAccountID r
  | history_operation_id => HistoryOperationID r
  | order => Order r
  end.

Definition evalCmp (o : cmpOp) (x y : Z) : bool :=
  match o with
  | OpEq => x =? y
  | OpGt => x >? y
  | OpGe => x >=? y
  | OpLt => x <? y
  | OpLe => x <=? y
  end.

(** Evaluates a predicate text on a row; returns the truth value and the
    arguments that are left, or [None] when a placeholder has no
    argument. *)
Fixpoint evalCond (c : cond) (args : list Z) (r : Effect)
  : option (bool * list Z) :=
  match c with
  | Cmp col o =>
      match args with
      | [] => None
      | v :: rest => Some (evalCmp o (colVal col r) v, rest)
      end
  | And a b =>
      match evalCond a args r with
      | Some (x, rest) =>
          match evalCond b rest r with
          | Some (y, rest') => Some (x && y, rest')
          | None => None
          end
      | None => None
      end
  | Or a b =>
      match evalCond a args r with
      | Some (x, rest) =>
          match evalCond b rest r with
          | Some (y, rest') => Some (x || y, rest')
          | None => None
          end
      | None => None
      end
  end.

(** A part holds on a row; a text whose placeholders and arguments do not
    match in number is not a query and selects nothing. *)
Definition holds (p : wherePart) (r : Effect) : bool :=
  match p with
  | Expr sql args =>
      match evalCond sql args r with
      | Some (x, []) => x
      | _ => false
      end
  | EqList c vals => existsb (Z.eqb (colVal c r)) vals
  end.

(** The parts of a builder are joined by AND. *)
Definition selects (b : SelectBuilder) (r : Effect) : bool :=
  forallb (fun p => holds p r) (WhereParts b).

(** *** Meaning of ORDER BY: the rows are compared on the terms in turn *)

Fixpoint rowCompare (terms : list (column * direction)) (x y : Effect)
  : comparison :=
  match terms with
  | [] => Eq
  | (c, d) :: rest =>
      let k := match d with
               | asc => colVal c x ?= colVal c y
               | desc => colVal c y ?= colVal c x
               end in
      match k with
      | Eq => rowCompare rest x y
      | _ => k
      end
  end.

Fixpoint insertRow (terms : list (column * direction)) (x : Effect)
  (l : list Effect) : list Effect :=
  match l with
  | [] => [x]
  | y :: l' =>
      match rowCompare terms x y with
      | Gt => y :: insertRow terms x l'
      | _ => x :: l
      end
  end.

Definition sortRows (terms : list (column * direction)) (l : list Effect)
  : list Effect :=
  fold_right (insertRow terms) [] l.

(** What a table returns for a builder: the selected rows, in order, cut
    at the limit. *)
Definition run (b : SelectBuilder) (table : list Effect) : list Effect :=
  let rows := sortRows (OrderBys b) (filter (selects b) table) in
  match LimitOf b with
  | Some n => firstn (Z.to_nat n) rows
  | None => rows
  end.

End sq.

(* ================================================================== *)
(** ** protocols/horizon/effects and encoding/json *)

Module effects.

(** The fields of [TrustlineSponsorshipCreated],
    [TrustlineSponsorshipUpdated] and [TrustlineSponsorshipRemoved] that
    the source reads or writes: [Type] (json [asset_type]) and [Asset]. *)
Record TrustlineSponsorship : Type := mkTrustlineSponsorship {
  Type_ : string;
  Asset : string
}.

(** [dest.Type = t] *)
Definition set_Type (t : string) (d : TrustlineSponsorship)
  : TrustlineSponsorship :=
  {| Type_ := t; Asset := Asset d |}.

End effects.

(** The destination of [UnmarshalDetails] ([dest interface{}]) by dynamic
    type: a pointer to one of the three sponsorship payloads, or anything
    else. *)
Inductive Dest : Type :=
| TrustlineSponsorshipCreated (d : effects.TrustlineSponsorship)
| TrustlineSponsorshipUpdated (d : effects.TrustlineSponsorship)
| TrustlineSponsorshipRemoved (d : effects.TrustlineSponsorship)
| OtherDest (kind : string) (payload : string).

(** What the local variable [dest] holds after
    [json.Unmarshal(data, &dest)]. The decoder is given the address of the
    variable: it decodes into the struct that the variable points to and
    leaves the variable alone, or stores a value of its own in the
    variable (nil for the document [null]) and leaves the struct alone. *)
Inductive Local : Type :=
| SamePointer
| Reassigned.

(** [json.Unmarshal(data, &dest)]: what the local variable holds after
    decoding, the caller's destination after decoding, and the error, if
    any. *)
Definition Unmarshaler : Type :=
  string -> Dest -> Local * Dest * option error.

(* ================================================================== *)
(** ** package history *)

Record Account : Type := mkAccount { Account_ID : Z }.
Record Ledger : Type := mkLedger { Ledger_Sequence : Z }.
Record Transaction : Type := mkTransaction { Transaction_ID : Z }.

Inductive SqlArg : Type :=
| ArgString (s : string)
| ArgInt (z : Z).

(** [*Q], the storage handle: the lookups and queries the builder runs on
    its parent. A lookup returns the loaded value or the error; [Select]
    is given the destination and returns what it holds afterwards, with
    the error, if any. *)
Record Q : Type := mkQ {
  AccountByAddress : string -> result Account;
  LedgerBySequence : Z -> result Ledger;
  TransactionByHash : string -> result Transaction;
  SelectRaw : string -> list SqlArg -> result (list Z);
  Q_Select : sq.SelectBuilder -> list Effect -> list Effect * option error
}.

(** The calls made on the storage handle. *)
Inductive Call : Type :=
| CallAccountByAddress (aid : string)
| CallLedgerBySequence (seq : Z)
| CallTransactionByHash (hash : string)
| CallSelectRaw (query : string) (args : list SqlArg)
| CallSelect (sql : sq.SelectBuilder).

(** Computations that call storage: the log of calls is threaded. *)
Definition Storage (A : Type) : Type := list Call -> A * list Call.

Definition ret {A : Type} (a : A) : Storage A := fun log => (a, log).

Definition bind {A B : Type} (m : Storage A) (k : A -> Storage B)
  : Storage B :=
  fun log => let (a, log') := m log in k a log'.

Definition perform {A : Type} (c : Call) (r : A) : Storage A :=
  fun log => (r, (log ++ [c])%list).

Notation "x <- m ;; k" := (bind m (fun x => k))
  (at level 61, m at next level, right associativity).

Record EffectsQ : Type := mkEffectsQ {
  Err : option error;
  parent : Q;
  sql : sq.SelectBuilder
}.

Definition with_Err (e : option error) (q : EffectsQ) : EffectsQ :=
  {| Err := e; parent := parent q; sql := sql q |}.

Definition with_sql (s : sq.SelectBuilder) (q : EffectsQ) : EffectsQ :=
  {| Err := Err q; parent := parent q; sql := s |}.

(** *** Effect methods *)

Definition getAssetTypeForCanonicalAsset (canonicalAsset : string) : string :=
  if Z.of_nat (String.length canonicalAsset) <=? 61
  then "credit_alphanum4"
  else "credit_alphanum12".

(** [UnmarshalDetails] returns the caller's destination after the call and
    the error. The type switch reads the local variable: it finds one of
    the three payloads only while the variable still holds the caller's
    pointer. *)
Definition UnmarshalDetails (json_Unmarshal : Unmarshaler) (r : Effect)
  (dest : Dest) : Dest * option error :=
  if negb (Valid (DetailsString r)) then (dest, None)
  else
    let '(local, dest, e) := json_Unmarshal (String' (DetailsString r)) dest in
    let err := errors.Wrap e "unmarshal effect details failed" in
    match err with
    | None =>
        (match local, dest with
         | Reassigned, _ => dest
         | SamePointer, TrustlineSponsorshipCreated d =>
             if String.eqb (effects.Type_ d) ""
             then TrustlineSponsorshipCreated
                    (effects.set_Type
                       (getAssetTypeForCanonicalAsset (effects.Asset d)) d)
             else dest
         | SamePointer, TrustlineSponsorshipUpdated d =>
             if String.eqb (effects.Type_ d) ""
             then TrustlineSponsorshipUpdated
                    (effects.set_Type
                       (getAssetTypeForCanonicalAsset (effects.Asset d)) d)
             else dest
         | SamePointer, TrustlineSponsorshipRemoved d =>
             if String.eqb (effects.Type_ d) ""
             then TrustlineSponsorshipRemoved
                    (effects.set_Type
                       (getAssetTypeForCanonicalAsset (effects.Asset d)) d)
             else dest
         | SamePointer, OtherDest _ _ => dest
         end, err)
    | Some _ => (dest, err)
    end.

(** [fmt.Sprintf("%019d-%010d", r.HistoryOperationID, r.Order)] *)
Definition ID (r : Effect) : string :=
  fmt.verb_0d 19 (HistoryOperationID r) ++ "-" ++ fmt.verb_0d 10 (Order r).

Definition LedgerSequence (toid_ : toid.Codec) (r : Effect) : Z :=
  let id := toid.Parse toid_ (HistoryOperationID r) in
  toid.LedgerSequence id.

(** [fmt.Sprintf("%d-%d", r.HistoryOperationID, r.Order)] *)
Definition PagingToken (r : Effect) : string :=
  fmt.verb_d (HistoryOperationID r) ++ "-" ++ fmt.verb_d (Order r).

(** *** The builder *)

Definition selectEffect : sq.SelectBuilder :=
  sq.LeftJoin
    (sq.From (sq.Select "heff.*, hacc.address") "history_effects heff")
    "history_accounts hacc ON hacc.id = heff.history_account_id".

Definition Effects (q : Q) : EffectsQ :=
  {| Err := None; parent := q; sql := selectEffect |}.

(** ["heff.history_operation_id >= ? AND heff.history_operation_id < ?"] *)
Definition sqlKeyRange : sq.cond :=
  sq.And (sq.Cmp sq.history_operation_id sq.OpGe)
         (sq.Cmp sq.history_operation_id sq.OpLt).

Definition ForAccount (q : EffectsQ) (aid : string) : Storage EffectsQ :=
  r <- perform (CallAccountByAddress aid) (AccountByAddress (parent q) aid) ;;
  match r with
  | inl e => ret (with_Err (Some e) q)
  | inr account =>
      let q := with_Err None q in
      (* "heff.history_account_id = ?" *)
      ret (with_sql
             (sq.Where (sql q)
                (sq.Expr (sq.Cmp sq.history_account_id sq.OpEq)
                         [Account_ID account])) q)
  end.

Definition ForLedger (toid_ : toid.Codec) (q : EffectsQ) (seq : Z)
  : Storage EffectsQ :=
  r <- perform (CallLedgerBySequence seq) (LedgerBySequence (parent q) seq) ;;
  match r with
  | inl e => ret (with_Err (Some e) q)
  | inr _ =>
      let q := with_Err None q in
      let start := toid.mkID seq 0 0 in
      let end_ := toid.mkID (GoInt.add32 seq 1) 0 0 in
      ret (with_sql
             (sq.Where (sql q)
                (sq.Expr sqlKeyRange
                   [toid.ToInt64 toid_ start; toid.ToInt64 toid_ end_])) q)
  end.

Definition ForOperation (toid_ : toid.Codec) (q : EffectsQ) (id : Z)
  : EffectsQ :=
  let start := toid.Parse toid_ id in
  let end_ := start in
  let end_ := toid.IncOperationOrder toid_ end_ in
  with_sql
    (sq.Where (sql q)
       (sq.Expr sqlKeyRange
          [toid.ToInt64 toid_ start; toid.ToInt64 toid_ end_])) q.

Definition newline_tab : string :=
  String (ascii_of_nat 10) (String (ascii_of_nat 9) EmptyString).

(** The raw query of [ForLiquidityPool], before the direction is added. *)
Definition holpQuery : string :=
  "SELECT holp.history_operation_id" ++ newline_tab ++
  "FROM history_operation_liquidity_pools holp" ++ newline_tab ++
  "WHERE holp.history_liquidity_pool_id = (SELECT id FROM history_liquidity_pools WHERE liquidity_pool_id =  ?)"
  ++ newline_tab.

Definition holpAsc : string :=
  "AND holp.history_operation_id >= ? ORDER BY holp.history_operation_id asc LIMIT ?".

Definition holpDesc : string :=
  "AND holp.history_operation_id <= ? ORDER BY holp.history_operation_id desc LIMIT ?".

Definition ForLiquidityPool (CursorInt64Pair : db2.CursorDecoder)
  (q : EffectsQ) (page : db2.PageQuery) (id : string) : Storage EffectsQ :=
  match Err q with
  | Some _ => ret q
  | None =>
      match CursorInt64Pair page db2.DefaultPairSep with
      | inl err => ret (with_Err (Some err) q)
      | inr (op, _) =>
          let query := holpQuery in
          let switch : result string :=
            if String.eqb (db2.Order page) "asc" then inr (query ++ holpAsc)
            else if String.eqb (db2.Order page) "desc"
                 then inr (query ++ holpDesc)
                 else inl (errors.Errorf_invalid_paging_order (db2.Order page)) in
          match switch with
          | inl err => ret (with_Err (Some err) q)
          | inr query =>
              let args := [ArgString id; ArgInt op; ArgInt (db2.Limit page)] in
              r <- perform (CallSelectRaw query args)
                     (SelectRaw (parent q) query args) ;;
              match r with
              | inl err => ret (with_Err (Some err) q)
              | inr liquidityPoolOperationIDs =>
                  ret (with_sql
                         (sq.Where (sql q)
                            (sq.EqList sq.history_operation_id
                               liquidityPoolOperationIDs)) q)
              end
          end
      end
  end.

Definition ForTransaction (toid_ : toid.Codec) (q : EffectsQ) (hash : string)
  : Storage EffectsQ :=
  r <- perform (CallTransactionByHash hash)
         (TransactionByHash (parent q) hash) ;;
  match r with
  | inl e => ret (with_Err (Some e) q)
  | inr tx =>
      let q := with_Err None q in
      let start := toid.Parse toid_ (Transaction_ID tx) in
      let end_ := start in
      let end_ :=
        {| toid.LedgerSequence := toid.LedgerSequence end_;
           toid.TransactionOrder := GoInt.add32 (toid.TransactionOrder end_) 1;
           toid.OperationOrder := toid.OperationOrder end_ |} in
      ret (with_sql
             (sq.Where (sql q)
                (sq.Expr sqlKeyRange
                   [toid.ToInt64 toid_ start; toid.ToInt64 toid_ end_])) q)
  end.

(** [heff.history_operation_id >= ? AND (heff.history_operation_id > ? OR
    (heff.history_operation_id = ? AND heff.order > ?))] *)
Definition sqlPageAsc : sq.cond :=
  sq.And (sq.Cmp sq.history_operation_id sq.OpGe)
    (sq.Or (sq.Cmp sq.history_operation_id sq.OpGt)
       (sq.And (sq.Cmp sq.history_operation_id sq.OpEq)
               (sq.Cmp sq.order sq.OpGt))).

(** [heff.history_operation_id <= ? AND (heff.history_operation_id < ? OR
    (heff.history_operation_id = ? AND heff.order < ?))] *)
Definition sqlPageDesc : sq.cond :=
  sq.And (sq.Cmp sq.history_operation_id sq.OpLe)
    (sq.Or (sq.Cmp sq.history_operation_id sq.OpLt)
       (sq.And (sq.Cmp sq.history_operation_id sq.OpEq)
               (sq.Cmp sq.order sq.OpLt))).

Definition Page (CursorInt64Pair : db2.CursorDecoder) (q : EffectsQ)
  (page : db2.PageQuery) : EffectsQ :=
  match Err q with
  | Some _ => q
  | None =>
      match CursorInt64Pair page db2.DefaultPairSep with
      | inl err => with_Err (Some err) q
      | inr (op, idx) =>
          let idx := if idx >? GoInt.MaxInt32 then GoInt.MaxInt32 else idx in
          let q :=
            if String.eqb (db2.Order page) "asc" then
              with_sql
                (sq.OrderBy
                   (sq.Where (sql q) (sq.Expr sqlPageAsc [op; op; op; idx]))
                   [(sq.history_operation_id, sq.asc); (sq.order, sq.asc)]) q
            else if String.eqb (db2.Order page) "desc" then
              with_sql
                (sq.OrderBy
                   (sq.Where (sql q) (sq.Expr sqlPageDesc [op; op; op; idx]))
                   [(sq.history_operation_id, sq.desc); (sq.order, sq.desc)]) q
            else q in
          with_sql (sq.Limit (sql q) (db2.Limit page)) q
      end
  end.

(** [Select] returns the builder, the destination and the error. The
    destination is handed to the storage handle, which leaves in it what
    it loaded. *)
Definition Select (q : EffectsQ) (dest : list Effect)
  : Storage (EffectsQ * list Effect * option error) :=
  match Err q with
  | Some e => ret (q, dest, Some e)
  | None =>
      r <- perform (CallSelect (sql q)) (Q_Select (parent q) (sql q) dest) ;;
      let (dest, err) := r in
      ret (with_Err err q, dest, err)
  end.

(* ================================================================== *)
(** ** Notions the statements use *)

(** Numeric pair comparison of two records on (operationId, order). *)
Definition keyLt (a b : Effect) : Prop :=
  HistoryOperationID a < HistoryOperationID b \/
  (HistoryOperationID a = HistoryOperationID b /\ Order a < Order b).

(** The record with the given key (no account, no details). *)
Definition effectAt (operationId order : Z) : Effect :=
  {| HistoryAccountID := 0; HistoryOperationID := operationId; Order := order;
     DetailsString := {| String' := ""; Valid := false |} |}.

(** [json.Unmarshal] on the document [{}]: no field of the destination is
    set and no error is returned. *)
Definition unmarshalEmptyObject : Unmarshaler :=
  fun _ dest => (SamePointer, dest, None).


(** The (account, operation id, order) of each row. *)
Definition keysOf (rows : list Effect) : list (Z * Z * Z) :=
  map (fun r => (HistoryAccountID r, HistoryOperationID r, Order r)) rows.

(* ================================================================== *)
(** ** An in-memory storage handle, to run the builder on concrete data *)

Module mem.

Record DB : Type := mkDB {
  accounts : list (string * Z);
  ledgers : list Z;
  transactions : list (string * Z);
  poolOperations : list (string * Z);
  history_effects : list Effect
}.

Definition ErrNoRows : error := errors.New "sql: no rows in result set".

Fixpoint lookup (k : string) (l : list (string * Z)) : option Z :=
  match l with
  | [] => None
  | (k', v) :: l' => if String.eqb k k' then Some v else lookup k l'
  end.

Fixpoint insertZ (le : Z -> Z -> bool) (x : Z) (l : list Z) : list Z :=
  match l with
  | [] => [x]
  | y :: l' => if le x y then x :: l else y :: insertZ le x l'
  end.

Definition sortZ (le : Z -> Z -> bool) (l : list Z) : list Z :=
  fold_right (insertZ le) [] l.

Definition operationsOfPool (db : DB) (pool : string) : list Z :=
  map snd (filter (fun kv => String.eqb (fst kv) pool) (poolOperations db)).

(** The two statements over [history_operation_liquidity_pools] that the
    database answers, by their text: the operations of a pool from a given
    id upwards in ascending order, and from a given id downwards in
    descending order. *)
Definition operationsUpwards : string :=
  ("SELECT holp.history_operation_id"
   ++ String "010"%char (String "009"%char
        "FROM history_operation_liquidity_pools holp")
   ++ String "010"%char (String "009"%char
        "WHERE holp.history_liquidity_pool_id = (SELECT id FROM history_liquidity_pools WHERE liquidity_pool_id =  ?)")
   ++ String "010"%char (String "009"%char
        "AND holp.history_operation_id >= ? ORDER BY holp.history_operation_id asc LIMIT ?")).

Definition operationsDownwards : string :=
  ("SELECT holp.history_operation_id"
   ++ String "010"%char (String "009"%char
        "FROM history_operation_liquidity_pools holp")
   ++ String "010"%char (String "009"%char
        "WHERE holp.history_liquidity_pool_id = (SELECT id FROM history_liquidity_pools WHERE liquidity_pool_id =  ?)")
   ++ String "010"%char (String "009"%char
        "AND holp.history_operation_id <= ? ORDER BY holp.history_operation_id desc LIMIT ?")).

Definition selectRaw (db : DB) (query : string) (args : list SqlArg)
  : result (list Z) :=
  match args with
  | [ArgString pool; ArgInt op; ArgInt limit] =>
      if String.eqb query operationsUpwards then
        inr (firstn (Z.to_nat limit)
               (sortZ Z.leb (filter (fun x => x >=? op) (operationsOfPool db pool))))
      else if String.eqb query operationsDownwards then
        inr (firstn (Z.to_nat limit)
               (sortZ Z.geb (filter (fun x => x <=? op) (operationsOfPool db pool))))
      else inl (errors.New "syntax error")
  | _ => inl (errors.New "bind error")
  end.

Definition handle (db : DB) : Q :=
  {| AccountByAddress := fun aid =>
       match lookup aid (accounts db) with
       | Some id => inr (mkAccount id)
       | None => inl ErrNoRows
       end;
     LedgerBySequence := fun seq =>
       if existsb (Z.eqb seq) (ledgers db) then inr (mkLedger seq)
       else inl ErrNoRows;
     TransactionByHash := fun hash =>
       match lookup hash (transactions db) with
       | Some id => inr (mkTransaction id)
       | None => inl ErrNoRows
       end;
     SelectRaw := selectRaw db;
     Q_Select := fun b _ => (sq.run b (history_effects db), None) |}.

(** A small database. The keys are those of the codec [toid.packed]:
    [21474840577] is operation 1 of transaction 1 of ledger 5. *)
Definition row (account operationId order : Z) : Effect :=
  {| HistoryAccountID := account; HistoryOperationID := operationId;
     Order := order; DetailsString := {| String' := ""; Valid := false |} |}.

Definition sample : DB :=
  {| accounts := [("GALICE", 7); ("GBOB", 8)];
     ledgers := [4; 5; 6];
     transactions := [("t51", 21474840576)];
     poolOperations := [("pool1", 21474840577); ("pool1", 25769807873)];
     history_effects :=
       [ row 8 17179873281 1;
         row 7 21474840577 1;
         row 8 21474840577 2;
         row 7 21474840578 1;
         row 8 21474844673 1;
         row 7 25769807873 1 ] |}.

End mem.

(* ================================================================== *)
(** ** Chains of builder calls *)

(** One chained call on the builder, with its arguments. *)
Inductive Step : Type :=
| StepForAccount (aid : string)
| StepForLedger (seq : Z)
| StepForOperation (id : Z)
| StepForLiquidityPool (page : db2.PageQuery) (id : string)
| StepForTransaction (hash : string)
| StepPage (page : db2.PageQuery).

Definition step (toid_ : toid.Codec) (CursorInt64Pair : db2.CursorDecoder)
  (s : Step) (q : EffectsQ) : Storage EffectsQ :=
  match s with
  | StepForAccount aid => ForAccount q aid
  | StepForLedger seq => ForLedger toid_ q seq
  | StepForOperation id => ret (ForOperation toid_ q id)
  | StepForLiquidityPool page id => ForLiquidityPool CursorInt64Pair q page id
  | StepForTransaction hash => ForTransaction toid_ q hash
  | StepPage page => ret (Page CursorInt64Pair q page)
  end.

(** [q.s1(...).s2(...)...]: the calls are made from left to right on the
    builder that the previous call returned. *)
Fixpoint chain (toid_ : toid.Codec) (CursorInt64Pair : db2.CursorDecoder)
  (steps : list Step) (q : EffectsQ) : Storage EffectsQ :=
  match steps with
  | [] => ret q
  | s :: rest =>
      q' <- step toid_ CursorInt64Pair s q ;;
      chain toid_ CursorInt64Pair rest q'
  end.

(** The calls that start with [if q.Err != nil { return q }]. *)
Definition guarded (s : Step) : bool :=
  match s with
  | StepForLiquidityPool _ _ | StepPage _ => true
  | _ => false
  end.


(** The calls that add one predicate and nothing else to the query. *)
Definition isFilter (s : Step) : bool :=
  match s with
  | StepForAccount _ | StepForLedger _ | StepForOperation _
  | StepForTransaction _ => true
  | _ => false
  end.

Definition ErrConnection : error := errors.New "connection refused".

(** A storage handle on which every call fails. *)
Definition broken : Q :=
  {| AccountByAddress := fun _ => inl ErrConnection;
     LedgerBySequence := fun _ => inl ErrConnection;
     TransactionByHash := fun _ => inl ErrConnection;
     SelectRaw := fun _ _ => inl ErrConnection;
     Q_Select := fun _ dest => (dest, Some ErrConnection) |}.

(** [json.Unmarshal] on a document that is cut short: the destination is
    left as it was and the syntax error is returned. *)
Definition unmarshalTruncated : Unmarshaler :=
  fun _ dest =>
    (SamePointer, dest, Some (errors.New "unexpected end of JSON input")).

(** What every call keeps of the builder it is made on: the storage
    handle, the columns, the table and the joins; predicates are only
    added. *)
Definition extends (q q' : EffectsQ) : Prop :=
  parent q' = parent q /\
  sq.Columns (sql q') = sq.Columns (sql q) /\
  sq.FromTable (sql q') = sq.FromTable (sql q) /\
  sq.Joins (sql q') = sq.Joins (sql q) /\
  exists added, sq.WhereParts (sql q') = (sq.WhereParts (sql q) ++ added)%list.

(* ================================================================== *)
(** * Properties *)

(** ** Decimal printing and parsing *)

Section FmtFacts.

Import fmt.

Lemma pow10_pos (k : nat) : 0 < 10 ^ Z.of_nat k.
Proof. apply Z.pow_pos_nonneg; lia. Qed.

Lemma pow10_succ (k : nat) : 10 ^ Z.of_nat (S k) = 10 * 10 ^ Z.of_nat k.
Proof. rewrite Nat2Z.inj_succ, Z.pow_succ_r by lia. reflexivity. Qed.

Lemma append_nil_r (s : string) : s ++ "" = s.
Proof. induction s; simpl; congruence. Qed.

Lemma append_assoc (s t u : string) : (s ++ t) ++ u = s ++ (t ++ u).
Proof. induction s; simpl; congruence. Qed.

Lemma fixedDigits_length (w : nat) (n : Z) : String.length (fixedDigits w n) = w.
Proof. induction w; simpl; congruence. Qed.

Lemma fixedDigits_snoc (k : nat) (u : Z) :
  fixedDigits (S k) u = fixedDigits k (u / 10) ++ String (digit (u mod 10)) "".
Proof.
  induction k as [|k IH].
  - simpl. rewrite Z.div_1_r. reflexivity.
  - change (fixedDigits (S (S k)) u)
      with (String (digit (u / 10 ^ Z.of_nat (S k) mod 10)) (fixedDigits (S k) u)).
    rewrite IH. simpl fixedDigits. simpl String.append.
    rewrite pow10_succ, Z.div_div by (pose proof (pow10_pos k); lia).
    reflexivity.
Qed.

Lemma fmtDigits_fixed (fuel : nat) : forall (u : Z) (buf : string),
  0 <= u < 10 ^ Z.of_nat (S fuel) ->
  exists k : nat,
    (1 <= k <= S fuel)%nat /\ u < 10 ^ Z.of_nat k /\
    (k = 1%nat \/ 10 ^ (Z.of_nat k - 1) <= u) /\
    fmtDigits (S fuel) u buf = fixedDigits k u ++ buf.
Proof.
  induction fuel as [|fuel IH]; intros u buf Hu.
  - exists 1%nat. change (10 ^ Z.of_nat 1) with 10 in *.
    simpl. destruct (Z.ltb_spec u 10); [|lia].
    rewrite Z.div_1_r, Z.mod_small by lia. repeat split; auto; lia.
  - cbn [fmtDigits]. destruct (Z.ltb_spec u 10) as [Hlt|Hge].
    + exists 1%nat. change (10 ^ Z.of_nat 1) with 10.
      simpl. rewrite Z.div_1_r, Z.mod_small by lia. repeat split; auto; lia.
    + destruct (IH (u / 10) (String (digit (u mod 10)) buf)) as (k & Hk & Hlt & Hlow & Heq).
      { split; [apply Z.div_pos; lia|].
        apply Z.div_lt_upper_bound; [lia|]. rewrite <- pow10_succ. lia. }
      exists (S k). split; [lia|]. split.
      { rewrite pow10_succ. pose proof (Z.mul_div_le u 10 ltac:(lia)).
        pose proof (Z.mod_pos_bound u 10 ltac:(lia)).
        pose proof (Z.div_mod u 10 ltac:(lia)). lia. }
      split.
      { right. replace (Z.of_nat (S k) - 1) with (Z.of_nat k) by lia.
        pose proof (Z.div_mod u 10 ltac:(lia)).
        pose proof (Z.mod_pos_bound u 10 ltac:(lia)).
        destruct Hlow as [->|Hlow]; [change (10 ^ Z.of_nat 1) with 10; lia|].
        replace (Z.of_nat k) with (Z.succ (Z.of_nat k - 1)) by lia.
        rewrite Z.pow_succ_r by lia. lia. }
      change (fmtDigits (S fuel) (u / 10) (String (digit (u mod 10)) buf)
              = fixedDigits (S k) u ++ buf).
      rewrite Heq, fixedDigits_snoc, append_assoc. reflexivity.
Qed.

Lemma itoa_fixed (u : Z) :
  0 <= u ->
  exists k : nat,
    (1 <= k)%nat /\ u < 10 ^ Z.of_nat k /\
    (k = 1%nat \/ 10 ^ (Z.of_nat k - 1) <= u) /\
    itoa u = fixedDigits k u.
Proof.
  intros Hu. unfold itoa.
  destruct (fmtDigits_fixed (Z.to_nat (Z.log2 u)) u "") as (k & Hk & Hlt & Hlow & Heq).
  { split; [lia|]. rewrite Nat2Z.inj_succ, Z2Nat.id by apply Z.log2_nonneg.
    destruct (Z.eq_dec u 0) as [->|Hnz]; [reflexivity|].
    pose proof (Z.log2_spec u ltac:(lia)) as [_ H2].
    eapply Z.lt_le_trans; [exact H2|].
    apply Z.pow_le_mono_l. pose proof (Z.log2_nonneg u). lia. }
  exists k. rewrite append_nil_r in Heq. repeat split; auto; lia.
Qed.


Lemma fixedDigits_pad (j k : nat) (u : Z) :
  0 <= u < 10 ^ Z.of_nat k ->
  zeros j ++ fixedDigits k u = fixedDigits (j + k) u.
Proof.
  intros Hu. induction j as [|j IH]; [reflexivity|].
  simpl. rewrite IH. f_equal.
  assert (Hle : 10 ^ Z.of_nat k <= 10 ^ Z.of_nat (j + k))
    by (apply Z.pow_le_mono_r; lia).
  rewrite Z.div_small by lia. reflexivity.
Qed.

(** What the padded verb prints for a number that fits the width. *)
Lemma verb_0d_fixed (W : nat) (n : Z) :
  (1 <= W)%nat -> 0 <= n < 10 ^ Z.of_nat W ->
  verb_0d W n = fixedDigits W n.
Proof.
  intros HW Hn. unfold verb_0d.
  destruct (Z.ltb_spec n 0); [lia|].
  destruct (itoa_fixed n ltac:(lia)) as (k & Hk & Hlt & Hlow & ->).
  unfold padLeft0. rewrite fixedDigits_length.
  assert (Hkw : (k <= W)%nat).
  { destruct Hlow as [->|Hlow]; [lia|].
    destruct (Nat.le_gt_cases k W) as [|Hgt]; [assumption|exfalso].
    assert (10 ^ Z.of_nat W <= 10 ^ (Z.of_nat k - 1))
      by (apply Z.pow_le_mono_r; lia).
    lia. }
  rewrite fixedDigits_pad by lia. f_equal. lia.
Qed.

Lemma verb_d_nonneg (n : Z) :
  0 <= n ->
  exists k : nat, (1 <= k)%nat /\ n < 10 ^ Z.of_nat k /\ verb_d n = fixedDigits k n.
Proof.
  intros Hn. unfold verb_d. destruct (Z.ltb_spec n 0); [lia|].
  destruct (itoa_fixed n Hn) as (k & Hk & Hlt & _ & ->). eauto.
Qed.

Lemma verb_d_neg (n : Z) :
  n < 0 ->
  exists k : nat, (1 <= k)%nat /\ - n < 10 ^ Z.of_nat k /\
    verb_d n = String "-" (fixedDigits k (- n)).
Proof.
  intros Hn. unfold verb_d. destruct (Z.ltb_spec n 0); [|lia].
  destruct (itoa_fixed (- n) ltac:(lia)) as (k & Hk & Hlt & _ & ->). eauto.
Qed.

(** *** Digits and the order of strings *)

Lemma N_of_digit (d : Z) : 0 <= d < 10 -> N_of_ascii (digit d) = (48 + Z.to_N d)%N.
Proof. intros Hd. unfold digit. apply N_ascii_embedding. lia. Qed.

Lemma compare_digit (a b : Z) :
  0 <= a < 10 -> 0 <= b < 10 ->
  Ascii.compare (digit a) (digit b) = (a ?= b).
Proof.
  intros Ha Hb. unfold Ascii.compare. rewrite !N_of_digit by assumption.
  rewrite <- N2Z.inj_compare, !N2Z.inj_add, !Z2N.id by lia.
  change (Z.of_N 48) with 48. apply Z.add_compare_mono_l.
Qed.

Lemma div_mod_mul (a b c : Z) :
  0 < b -> 0 < c -> (a mod (b * c)) / b = (a / b) mod c.
Proof.
  intros Hb Hc. rewrite Z.rem_mul_r by lia.
  rewrite (Z.mul_comm b), Z.div_add by lia.
  rewrite Z.div_small by (apply Z.mod_pos_bound; lia). reflexivity.
Qed.

Lemma fixedDigits_mod (w m : nat) (a : Z) :
  (w <= m)%nat -> fixedDigits w (a mod 10 ^ Z.of_nat m) = fixedDigits w a.
Proof.
  intros Hwm. induction w as [|w IH]; [reflexivity|].
  simpl. rewrite IH by lia. f_equal. f_equal.
  replace (Z.of_nat m) with (Z.of_nat w + Z.succ (Z.of_nat (m - S w))) by lia.
  rewrite Z.pow_add_r, Z.pow_succ_r by lia.
  pose proof (pow10_pos w). pose proof (pow10_pos (m - S w)).
  rewrite div_mod_mul by lia.
  apply Z.mod_mod_divide.
  exists (10 ^ Z.of_nat (m - S w)). lia.
Qed.

Lemma compare_fixedDigits (w : nat) : forall (a b : Z) (s t : string),
  0 <= a < 10 ^ Z.of_nat w -> 0 <= b < 10 ^ Z.of_nat w ->
  String.compare (fixedDigits w a ++ s) (fixedDigits w b ++ t) =
  match a ?= b with
  | Eq => String.compare s t
  | c => c
  end.
Proof.
  induction w as [|w IH]; intros a b s t Ha Hb.
  - change (10 ^ Z.of_nat 0) with 1 in *.
    assert (a = 0) by lia. assert (b = 0) by lia. subst. reflexivity.
  - rewrite pow10_succ in Ha, Hb. pose proof (pow10_pos w) as Hp.
    simpl fixedDigits. simpl String.append. simpl String.compare.
    pose proof (Z.div_mod a (10 ^ Z.of_nat w) ltac:(lia)) as Ea.
    pose proof (Z.div_mod b (10 ^ Z.of_nat w) ltac:(lia)) as Eb.
    pose proof (Z.mod_pos_bound a (10 ^ Z.of_nat w) Hp) as Ma.
    pose proof (Z.mod_pos_bound b (10 ^ Z.of_nat w) Hp) as Mb.
    assert (Da : 0 <= a / 10 ^ Z.of_nat w < 10).
    { split; [apply Z.div_pos; lia|apply Z.div_lt_upper_bound; lia]. }
    assert (Db : 0 <= b / 10 ^ Z.of_nat w < 10).
    { split; [apply Z.div_pos; lia|apply Z.div_lt_upper_bound; lia]. }
    rewrite !(Z.mod_small (_ / _) 10) by assumption.
    rewrite compare_digit by assumption.
    rewrite <- (fixedDigits_mod w w a), <- (fixedDigits_mod w w b) by lia.
    rewrite IH by assumption.
    destruct (Z.compare_spec (a / 10 ^ Z.of_nat w) (b / 10 ^ Z.of_nat w)) as [E|L|G].
    + rewrite E in Ea.
      destruct (Z.compare_spec (a mod 10 ^ Z.of_nat w) (b mod 10 ^ Z.of_nat w));
        destruct (Z.compare_spec a b); try reflexivity; lia.
    + destruct (Z.compare_spec a b); try reflexivity; nia.
    + destruct (Z.compare_spec a b); try reflexivity; nia.
Qed.


(** *** Reading the digits back *)

Lemma digit_cases (d : Z) (P : Z -> Prop) :
  0 <= d < 10 ->
  P 0 -> P 1 -> P 2 -> P 3 -> P 4 -> P 5 -> P 6 -> P 7 -> P 8 -> P 9 -> P d.
Proof.
  intros Hd.
  assert (d = 0 \/ d = 1 \/ d = 2 \/ d = 3 \/ d = 4 \/ d = 5 \/ d = 6 \/
          d = 7 \/ d = 8 \/ d = 9) as H by lia.
  intuition (subst; assumption).
Qed.

Lemma digitVal_digit (d : Z) : 0 <= d < 10 -> db2.digitVal (digit d) = Some d.
Proof. intros Hd. pattern d. apply digit_cases; auto. Qed.

Lemma parseDigits_fixed (w : nat) : forall (n acc : Z),
  db2.parseDigits (fixedDigits w n) acc =
  Some (acc * 10 ^ Z.of_nat w + n mod 10 ^ Z.of_nat w).
Proof.
  induction w as [|w IH]; intros n acc.
  - simpl. rewrite Z.mod_1_r. f_equal. lia.
  - pose proof (pow10_pos w) as Hp.
    simpl fixedDigits. cbn [db2.parseDigits].
    rewrite digitVal_digit by (apply Z.mod_pos_bound; lia).
    rewrite IH. f_equal. rewrite pow10_succ.
    rewrite (Z.mul_comm 10), Z.rem_mul_r by lia. lia.
Qed.

Lemma parseField_digit_head (d : Z) (rest : string) :
  0 <= d < 10 ->
  db2.parseField (String (digit d) rest) =
  match db2.parseDigits (String (digit d) rest) 0 with
  | Some v => if v <=? GoInt.MaxInt64 then Some v else None
  | None => None
  end.
Proof. intros Hd. pattern d. apply digit_cases; auto. Qed.

Lemma parseField_minus_digit_head (d : Z) (rest : string) :
  db2.parseField (String "-" (String (digit d) rest)) =
  match db2.parseDigits (String (digit d) rest) 0 with
  | Some v => if v <=? - GoInt.MinInt64 then Some (- v) else None
  | None => None
  end.
Proof. reflexivity. Qed.

(** An integer that fits an [int64] is read back from what [%d] prints. *)
Lemma parseField_verb_d (n : Z) :
  GoInt.is_int64 n -> db2.parseField (verb_d n) = Some n.
Proof.
  intros [Hlo Hhi]. unfold GoInt.MinInt64, GoInt.MaxInt64 in *.
  destruct (Z_lt_le_dec n 0) as [Hneg|Hpos].
  - destruct (verb_d_neg n Hneg) as (k & Hk & Hlt & ->).
    destruct k as [|k]; [lia|].
    change (fixedDigits (S k) (- n))
      with (String (digit (- n / 10 ^ Z.of_nat k mod 10)) (fixedDigits k (- n))).
    rewrite parseField_minus_digit_head.
    change (String (digit (- n / 10 ^ Z.of_nat k mod 10)) (fixedDigits k (- n)))
      with (fixedDigits (S k) (- n)).
    rewrite parseDigits_fixed, Z.mod_small by lia.
    change (- GoInt.MinInt64) with 9223372036854775808.
    destruct (Z.leb_spec (0 * 10 ^ Z.of_nat (S k) + - n) 9223372036854775808);
      [f_equal; lia|lia].
  - destruct (verb_d_nonneg n Hpos) as (k & Hk & Hlt & ->).
    destruct k as [|k]; [lia|].
    change (fixedDigits (S k) n)
      with (String (digit (n / 10 ^ Z.of_nat k mod 10)) (fixedDigits k n)).
    rewrite parseField_digit_head
      by (apply Z.mod_pos_bound; lia).
    change (String (digit (n / 10 ^ Z.of_nat k mod 10)) (fixedDigits k n))
      with (fixedDigits (S k) n).
    rewrite parseDigits_fixed, Z.mod_small by lia.
    unfold GoInt.MaxInt64.
    destruct (Z.leb_spec (0 * 10 ^ Z.of_nat (S k) + n) 9223372036854775807);
      [f_equal; lia|lia].
Qed.

Lemma prefix_minus_digit (d : Z) (rest : string) :
  0 <= d < 10 -> String.prefix "-" (String (digit d) rest) = false.
Proof. intros Hd. pattern d. apply digit_cases; auto. Qed.

Lemma splitFields_skip_digits (w : nat) : forall (n : Z) (pre rest : string),
  db2.splitFields "-" pre (fixedDigits w n ++ rest) =
  db2.splitFields "-" (pre ++ fixedDigits w n) rest.
Proof.
  induction w as [|w IH]; intros n pre rest.
  - simpl. rewrite append_nil_r. reflexivity.
  - pose proof (pow10_pos w) as Hp.
    simpl fixedDigits. simpl String.append. cbn [db2.splitFields].
    rewrite prefix_minus_digit by (apply Z.mod_pos_bound; lia).
    rewrite IH, append_assoc. reflexivity.
Qed.

Lemma splitFields_at_separator (pre rest : string) (l r : Z) :
  db2.parseField pre = Some l -> db2.parseField rest = Some r ->
  db2.splitFields "-" pre (String "-" rest) = Some (l, r).
Proof.
  intros Hl Hr. cbn [db2.splitFields]. simpl String.prefix. simpl db2.drop.
  rewrite Hl, Hr. destruct rest; reflexivity.
Qed.

(** The two fields of a token [<l>-<r>] are found again. *)
Lemma splitFields_token (l r : Z) :
  GoInt.is_int64 l -> GoInt.is_int64 r ->
  db2.splitFields "-" "" (verb_d l ++ "-" ++ verb_d r) = Some (l, r).
Proof.
  intros Hl Hr.
  pose proof (parseField_verb_d l Hl) as Pl.
  pose proof (parseField_verb_d r Hr) as Pr.
  destruct (Z_lt_le_dec l 0) as [Hneg|Hpos].
  - destruct (verb_d_neg l Hneg) as (k & Hk & Hlt & E). rewrite E in *.
    simpl String.append. cbn [db2.splitFields]. simpl String.prefix.
    change (db2.parseField "") with (@None Z). cbv iota.
    rewrite splitFields_skip_digits.
    destruct (prefix "" (fixedDigits k (- l) ++ String "-" (verb_d r)));
      apply splitFields_at_separator; assumption.
  - destruct (verb_d_nonneg l Hpos) as (k & Hk & Hlt & E). rewrite E in *.
    rewrite splitFields_skip_digits.
    apply splitFields_at_separator; assumption.
Qed.


End FmtFacts.

(** *** The cursor decoder accepts exactly the two-field tokens *)

Lemma prefix_drop (sep : string) : forall s : string,
  String.prefix sep s = true -> s = sep ++ db2.drop (String.length sep) s.
Proof.
  induction sep as [|a sep IH]; intros s H; [reflexivity|].
  destruct s as [|b s]; [discriminate|].
  cbn in H. destruct (ascii_dec a b) as [->|]; [|discriminate].
  cbn. f_equal. apply IH. assumption.
Qed.

Lemma prefix_app (sep b : string) : String.prefix sep (sep ++ b) = true.
Proof.
  induction sep as [|a sep IH]; [destruct b; reflexivity|].
  cbn. destruct (ascii_dec a a); [assumption|congruence].
Qed.

Lemma drop_app (sep b : string) : db2.drop (String.length sep) (sep ++ b) = b.
Proof. induction sep; [reflexivity|assumption]. Qed.

Lemma splitFields_sound (sep : string) : forall (s pre : string) (l r : Z),
  db2.splitFields sep pre s = Some (l, r) ->
  exists a b : string,
    s = a ++ sep ++ b /\
    db2.parseField (pre ++ a) = Some l /\ db2.parseField b = Some r.
Proof.
  induction s as [|c s IH]; intros pre l r H; [discriminate|].
  cbn [db2.splitFields] in H.
  destruct (String.prefix sep (String c s)) eqn:Hp.
  - destruct (db2.parseField pre) as [l'|] eqn:Hl;
      [destruct (db2.parseField (db2.drop (String.length sep) (String c s)))
         as [r'|] eqn:Hr|].
    + injection H as <- <-. exists "", (db2.drop (String.length sep) (String c s)).
      rewrite append_nil_r. split; [|split]; try assumption.
      apply prefix_drop. assumption.
    + destruct (IH _ _ _ H) as (a & b & -> & Ha & Hb).
      exists (String c a), b. rewrite append_assoc in Ha. auto.
    + destruct (IH _ _ _ H) as (a & b & -> & Ha & Hb).
      exists (String c a), b. rewrite append_assoc in Ha. auto.
  - destruct (IH _ _ _ H) as (a & b & -> & Ha & Hb).
    exists (String c a), b. rewrite append_assoc in Ha. auto.
Qed.

Lemma splitFields_complete (sep : string) : forall (a pre b : string) (l r : Z),
  sep <> "" ->
  db2.parseField (pre ++ a) = Some l -> db2.parseField b = Some r ->
  exists lr, db2.splitFields sep pre (a ++ sep ++ b) = Some lr.
Proof.
  induction a as [|c a IH]; intros pre b l r Hsep Hl Hr.
  - rewrite append_nil_r in Hl. destruct sep as [|c sep]; [congruence|].
    change ("" ++ String c sep ++ b) with (String c (sep ++ b)).
    cbn [db2.splitFields].
    change (String c (sep ++ b)) with (String c sep ++ b).
    rewrite prefix_app, drop_app, Hl, Hr. eauto.
  - change (String c a ++ sep ++ b) with (String c (a ++ sep ++ b)).
    cbn [db2.splitFields].
    match goal with
    | |- exists lr, match ?here with _ => _ end = _ => destruct here as [lr|]
    end; [eauto|].
    apply (IH _ b l r Hsep); [|assumption].
    rewrite append_assoc. assumption.
Qed.

(** Decoding succeeds exactly on the tokens that are two integer fields
    joined by the separator, and returns the values of two such fields. *)
Lemma CursorInt64Pair_two_fields (p : db2.PageQuery) (sep : string) :
  sep <> "" ->
  (forall l r, db2.CursorInt64Pair p sep = inr (l, r) ->
     exists a b, db2.Cursor p = a ++ sep ++ b /\
       db2.parseField a = Some l /\ db2.parseField b = Some r) /\
  ((exists a b l r, db2.Cursor p = a ++ sep ++ b /\
       db2.parseField a = Some l /\ db2.parseField b = Some r) ->
   exists lr, db2.CursorInt64Pair p sep = inr lr) /\
  (db2.CursorInt64Pair p sep = inl db2.ErrMalformedCursor \/
   exists lr, db2.CursorInt64Pair p sep = inr lr).
Proof.
  intros Hsep. unfold db2.CursorInt64Pair. split; [|split].
  - intros l r H.
    destruct (db2.splitFields sep "" (db2.Cursor p)) as [[l' r']|] eqn:E;
      [|discriminate].
    injection H as <- <-. exact (splitFields_sound sep _ _ _ _ E).
  - intros (a & b & l & r & -> & Ha & Hb).
    destruct (splitFields_complete sep a "" b l r Hsep Ha Hb) as (lr & ->).
    eauto.
  - destruct (db2.splitFields sep "" (db2.Cursor p)); eauto.
Qed.

(** ** Paging tokens and identifiers *)

(** C4. For every record whose operation id is an [int64] and whose order
    is in the range of the order column ([int32]), the paging token is the
    two decimal integer fields joined by "-", each field reads back as the
    integer it prints, and decoding the token as a cursor with the
    separator "-" yields exactly the pair (operationId, order). *)
Theorem PagingToken_roundtrip (r : Effect) (order : string) (limit : Z) :
  GoInt.is_int64 (HistoryOperationID r) ->
  GoInt.is_int32 (Order r) ->
  PagingToken r =
    fmt.verb_d (HistoryOperationID r) ++ "-" ++ fmt.verb_d (Order r) /\
  db2.parseField (fmt.verb_d (HistoryOperationID r))
    = Some (HistoryOperationID r) /\
  db2.parseField (fmt.verb_d (Order r)) = Some (Order r) /\
  db2.CursorInt64Pair (db2.mkPageQuery (PagingToken r) order limit)
    db2.DefaultPairSep
  = inr (HistoryOperationID r, Order r).
Proof.
  intros Ho Hr.
  assert (Hr64 : GoInt.is_int64 (Order r)).
  { unfold GoInt.is_int32, GoInt.is_int64, GoInt.MinInt32, GoInt.MaxInt32,
      GoInt.MinInt64, GoInt.MaxInt64 in *. lia. }
  split; [reflexivity|].
  split; [apply parseField_verb_d; assumption|].
  split; [apply parseField_verb_d; assumption|].
  unfold db2.CursorInt64Pair, db2.DefaultPairSep, PagingToken.
  cbn [db2.Cursor].
  rewrite splitFields_token; [reflexivity|assumption|assumption].
Qed.

(** The record (42, 1): its token is "42-1" and decodes to (42, 1). *)
Lemma PagingToken_roundtrip_witness :
  PagingToken (effectAt 42 1) = "42-1" /\
  db2.CursorInt64Pair (db2.mkPageQuery "42-1" "asc" 10) "-" = inr (42, 1).
Proof.
  split; [reflexivity|].
  apply (PagingToken_roundtrip (effectAt 42 1) "asc" 10);
    unfold GoInt.is_int64, GoInt.is_int32, GoInt.MinInt64, GoInt.MaxInt64,
      GoInt.MinInt32, GoInt.MaxInt32; simpl; lia.
Defined.

Lemma ID_fixed (r : Effect) :
  0 <= HistoryOperationID r <= GoInt.MaxInt64 ->
  0 <= Order r <= GoInt.MaxInt32 ->
  ID r = fmt.fixedDigits 19 (HistoryOperationID r) ++
         String "-" (fmt.fixedDigits 10 (Order r) ++ "").
Proof.
  unfold GoInt.MaxInt64, GoInt.MaxInt32. intros Ho Hr. unfold ID.
  rewrite !verb_0d_fixed, append_nil_r; try reflexivity; lia.
Qed.

Lemma compare_cons_same (c : ascii) (s t : string) :
  String.compare (String c s) (String c t) = String.compare s t.
Proof.
  cbn [String.compare]. unfold Ascii.compare. rewrite N.compare_refl.
  reflexivity.
Qed.

(** C5 (as amended). For any two records whose operation id and order are
    not negative (an [int64] and an [int32]), the identifier of [a] is
    below the identifier of [b] in string order if and only if
    (a.operationId, a.order) is below (b.operationId, b.order) in numeric
    pair order. *)
Theorem ID_lexical_order (a b : Effect) :
  0 <= HistoryOperationID a <= GoInt.MaxInt64 ->
  0 <= Order a <= GoInt.MaxInt32 ->
  0 <= HistoryOperationID b <= GoInt.MaxInt64 ->
  0 <= Order b <= GoInt.MaxInt32 ->
  (ID a <? ID b)%string = true <-> keyLt a b.
Proof.
  intros Hoa Hra Hob Hrb.
  rewrite (ID_fixed a), (ID_fixed b) by assumption.
  unfold GoInt.MaxInt64, GoInt.MaxInt32, keyLt in *.
  unfold String.ltb.
  rewrite compare_fixedDigits
    by (change (10 ^ Z.of_nat 19) with 10000000000000000000; lia).
  rewrite compare_cons_same.
  rewrite compare_fixedDigits
    by (change (10 ^ Z.of_nat 10) with 10000000000; lia).
  cbn [String.compare].
  destruct (Z.compare_spec (HistoryOperationID a) (HistoryOperationID b));
    destruct (Z.compare_spec (Order a) (Order b));
    split; intros Hlt; try discriminate; try reflexivity; lia.
Qed.

(** The records (42, 1) and (42, 2): their identifiers, in that order. *)
Lemma ID_lexical_order_witness :
  ID (effectAt 42 1) = "0000000000000000042-0000000001" /\
  ID (effectAt 42 2) = "0000000000000000042-0000000002" /\
  ("0000000000000000042-0000000001" <? "0000000000000000042-0000000002")%string = true.
Proof.
  split; [reflexivity|]. split; [reflexivity|].
  apply (ID_lexical_order (effectAt 42 1) (effectAt 42 2));
    unfold GoInt.MaxInt64, GoInt.MaxInt32, keyLt; simpl; lia.
Defined.

(** C5 as stated, for any two records, fails: the identifiers of
    (-1, 1) and (-2, 1) are "-000000000000000001-0000000001" and
    "-000000000000000002-0000000001", in that string order, while -1 is
    above -2. *)
Lemma ID_order_fails_on_negative_keys :
  ~ (forall a b : Effect,
       GoInt.is_int64 (HistoryOperationID a) -> GoInt.is_int32 (Order a) ->
       GoInt.is_int64 (HistoryOperationID b) -> GoInt.is_int32 (Order b) ->
       ((ID a <? ID b)%string = true <-> keyLt a b)).
Proof.
  intros H.
  specialize (H (effectAt (-1) 1) (effectAt (-2) 1)).
  unfold GoInt.is_int64, GoInt.is_int32, GoInt.MinInt64, GoInt.MaxInt64,
    GoInt.MinInt32, GoInt.MaxInt32 in H. simpl in H.
  destruct H as [H _]; try lia.
  assert (E : (ID (effectAt (-1) 1) <? ID (effectAt (-2) 1))%string = true)
    by reflexivity.
  apply H in E. unfold keyLt in E. simpl in E. lia.
Qed.

(* ================================================================== *)
(** ** The composite-key codec *)

Lemma lor_shiftl_add (a b n : Z) :
  0 <= n -> 0 <= b < 2 ^ n -> Z.lor (Z.shiftl a n) b = a * 2 ^ n + b.
Proof.
  intros Hn Hb.
  pose proof (Z.add_lor_land (Z.shiftl a n) b) as Hadd.
  rewrite Z.shiftl_mul_pow2 in Hadd at 3 by lia.
  assert (E : Z.land (Z.shiftl a n) b = 0); [|rewrite E in Hadd; lia].
  apply Z.bits_inj'. intros i Hi.
  rewrite Z.land_spec, Z.bits_0.
  destruct (Z_lt_le_dec i n) as [Hlt|Hge].
  - rewrite Z.shiftl_spec_low by assumption. reflexivity.
  - rewrite <- (Z.mod_small b (2 ^ n)) by assumption.
    rewrite Z.mod_pow2_bits_high by lia. apply andb_false_r.
Qed.

Lemma packedToInt64_arith (l t o : Z) :
  0 <= l < 2 ^ 32 -> 0 <= t < 2 ^ 20 -> 0 <= o < 2 ^ 12 ->
  toid.packedToInt64 (toid.mkID l t o) = l * 2 ^ 32 + t * 2 ^ 12 + o.
Proof.
  intros Hl Ht Ho. unfold toid.packedToInt64. cbn [toid.LedgerSequence toid.TransactionOrder toid.OperationOrder].
  change toid.LedgerMask with (Z.ones 32).
  change toid.TransactionMask with (Z.ones 20).
  change toid.OperationMask with (Z.ones 12).
  unfold toid.LedgerShift, toid.TransactionShift, toid.OperationShift.
  rewrite !Z.land_ones, Z.shiftl_0_r by lia.
  rewrite !Z.mod_small by lia.
  rewrite (lor_shiftl_add t o 12) by lia.
  rewrite (lor_shiftl_add l _ 32) by lia. lia.
Qed.

Lemma packedParse_arith (k : Z) :
  0 <= k <= GoInt.MaxInt64 ->
  toid.packedParse k =
  toid.mkID (k / 2 ^ 32) ((k / 2 ^ 12) mod 2 ^ 20) (k mod 2 ^ 12).
Proof.
  unfold GoInt.MaxInt64. intros Hk. unfold toid.packedParse.
  change toid.LedgerMask with (Z.ones 32).
  change toid.TransactionMask with (Z.ones 20).
  change toid.OperationMask with (Z.ones 12).
  unfold toid.LedgerShift, toid.TransactionShift, toid.OperationShift.
  rewrite Z.shiftr_0_r, !Z.land_ones, !Z.shiftr_div_pow2 by lia.
  assert (Hl : 0 <= k / 2 ^ 32 < 2 ^ 31).
  { split; [apply Z.div_pos; lia|apply Z.div_lt_upper_bound; lia]. }
  f_equal. unfold GoInt.wrap.
  rewrite (Z.mod_small (k / 2 ^ 32)) by lia.
  rewrite Z.mod_small by lia. lia.
Qed.

Lemma packedParse_decompose (k : Z) :
  toid.isKey k ->
  exists l t o : Z,
    toid.packedParse k = toid.mkID l t o /\
    k = l * 2 ^ 32 + t * 2 ^ 12 + o /\
    0 <= l < 2 ^ 31 /\ 0 <= t < 2 ^ 20 /\ 0 <= o < 2 ^ 12.
Proof.
  intros Hk. rewrite packedParse_arith by exact Hk.
  unfold toid.isKey, GoInt.MaxInt64 in Hk.
  exists (k / 2 ^ 32), ((k / 2 ^ 12) mod 2 ^ 20), (k mod 2 ^ 12).
  split; [reflexivity|].
  pose proof (Z.div_mod k (2 ^ 12) ltac:(lia)) as E1.
  pose proof (Z.div_mod (k / 2 ^ 12) (2 ^ 20) ltac:(lia)) as E2.
  rewrite Z.div_div in E2 by lia. change (2 ^ 12 * 2 ^ 20) with (2 ^ 32) in E2.
  pose proof (Z.mod_pos_bound k (2 ^ 12) ltac:(lia)).
  pose proof (Z.mod_pos_bound (k / 2 ^ 12) (2 ^ 20) ltac:(lia)).
  assert (0 <= k / 2 ^ 32 < 2 ^ 31).
  { split; [apply Z.div_pos; lia|apply Z.div_lt_upper_bound; lia]. }
  repeat split; lia.
Qed.

Lemma packed_laws : toid.Laws toid.packed.
Proof.
  constructor; cbn [toid.Parse toid.ToInt64 toid.packed].
  - intros k Hk.
    destruct (packedParse_decompose k Hk) as (l & t & o & -> & E & Hl & Ht & Ho).
    rewrite packedToInt64_arith by lia. lia.
  - intros k1 k2 H1 H2.
    destruct (packedParse_decompose k1 H1) as (l1 & t1 & o1 & -> & E1 & ? & ? & ?).
    destruct (packedParse_decompose k2 H2) as (l2 & t2 & o2 & -> & E2 & ? & ? & ?).
    unfold toid.lex_lt. cbn [toid.LedgerSequence toid.TransactionOrder toid.OperationOrder].
    lia.
  - intros k Hk.
    destruct (packedParse_decompose k Hk) as (l & t & o & -> & E & Hl & Ht & Ho).
    cbn. lia.
Qed.

(** ** The predicates on rows *)

Ltac zbool :=
  rewrite ?Z.geb_leb, ?Z.gtb_ltb in *;
  repeat match goal with
  | |- context [?x <=? ?y] => destruct (Z.leb_spec x y)
  | |- context [?x <? ?y] => destruct (Z.ltb_spec x y)
  | |- context [?x =? ?y] => destruct (Z.eqb_spec x y)
  end;
  cbn [andb orb negb]; try (split; intros; try discriminate; try reflexivity; lia).

Lemma holds_keyRange (lo hi : Z) (r : Effect) :
  sq.holds (sq.Expr sqlKeyRange [lo; hi]) r = true <->
  lo <= HistoryOperationID r < hi.
Proof. cbn. zbool. Qed.

Lemma holds_pageAsc (major minor : Z) (r : Effect) :
  sq.holds (sq.Expr sqlPageAsc [major; major; major; minor]) r = true <->
  keyLt (effectAt major minor) r.
Proof. unfold keyLt. cbn. zbool. Qed.

Lemma holds_pageDesc (major minor : Z) (r : Effect) :
  sq.holds (sq.Expr sqlPageDesc [major; major; major; minor]) r = true <->
  keyLt r (effectAt major minor).
Proof. unfold keyLt. cbn. zbool. Qed.

Lemma holds_EqList (c : sq.column) (vals : list Z) (r : Effect) :
  sq.holds (sq.EqList c vals) r = true <-> In (sq.colVal c r) vals.
Proof.
  cbn [sq.holds]. rewrite existsb_exists. split.
  - intros (x & Hin & E). apply Z.eqb_eq in E. subst. assumption.
  - intros Hin. exists (sq.colVal c r). split; [assumption|apply Z.eqb_refl].
Qed.

Lemma add32_no_overflow (x : Z) :
  GoInt.MinInt32 <= x + 1 <= GoInt.MaxInt32 -> GoInt.add32 x 1 = x + 1.
Proof.
  unfold GoInt.MinInt32, GoInt.MaxInt32, GoInt.add32, GoInt.wrap. intros H.
  rewrite Z.mod_small by lia. lia.
Qed.

Lemma packed_inDomain (k : Z) (x : toid.ID) :
  toid.isKey k -> toid.packedParse k = x -> toid.inDomain toid.packed x.
Proof. intros Hk E. exists k. split; assumption. Qed.

Section CodecLaws.

Variable c : toid.Codec.
Hypothesis laws : toid.Laws c.

(** An id of the codec is the id of its own key. *)
Lemma inDomain_key (x : toid.ID) :
  toid.inDomain c x ->
  toid.isKey (toid.ToInt64 c x) /\ toid.Parse c (toid.ToInt64 c x) = x.
Proof.
  intros (k & Hk & <-). rewrite (toid.parse_ToInt64 c laws k Hk). auto.
Qed.

(** Comparing a key with the key of an id is comparing the ids. *)
Lemma key_lt_id (k : Z) (x : toid.ID) :
  toid.isKey k -> toid.inDomain c x ->
  (k < toid.ToInt64 c x <-> toid.lex_lt (toid.Parse c k) x).
Proof.
  intros Hk Hx. destruct (inDomain_key x Hx) as [Kx Px].
  rewrite (toid.order_preserved c laws k _ Hk Kx), Px. reflexivity.
Qed.

Lemma id_le_key (k : Z) (x : toid.ID) :
  toid.isKey k -> toid.inDomain c x ->
  (toid.ToInt64 c x <= k <-> ~ toid.lex_lt (toid.Parse c k) x).
Proof.
  intros Hk Hx. rewrite <- (key_lt_id k x Hk Hx). lia.
Qed.

Lemma key_le_key (k1 k2 : Z) :
  toid.isKey k1 -> toid.isKey k2 ->
  (k1 <= k2 <-> ~ toid.lex_lt (toid.Parse c k2) (toid.Parse c k1)).
Proof.
  intros H1 H2. rewrite <- (toid.order_preserved c laws _ _ H2 H1). lia.
Qed.

Lemma Parse_inj (k1 k2 : Z) :
  toid.isKey k1 -> toid.isKey k2 ->
  toid.Parse c k1 = toid.Parse c k2 -> k1 = k2.
Proof.
  intros H1 H2 E.
  rewrite <- (toid.parse_ToInt64 c laws k1 H1),
          <- (toid.parse_ToInt64 c laws k2 H2), E.
  reflexivity.
Qed.

End CodecLaws.

(** ** Key-range filters *)

(** C6. When the ledger [seq] resolves, [ForLedger] adds one predicate,
    which holds on exactly the rows whose key lies in
    [[key(seq,0,0), key(seq+1,0,0))]. Under the laws of the codec, and for
    a sequence below the largest [int32], these are exactly the rows of
    ledger [seq] among the rows with a key: no row of ledger [seq + 1] or
    [seq - 1] satisfies the predicate. *)
Theorem ForLedger_key_range (c : toid.Codec) (q : EffectsQ) (seq : Z)
  (ledger : Ledger) (log : list Call) :
  LedgerBySequence (parent q) seq = inr ledger ->
  let start := toid.ToInt64 c (toid.mkID seq 0 0) in
  let end_ := toid.ToInt64 c (toid.mkID (GoInt.add32 seq 1) 0 0) in
  let part := sq.Expr sqlKeyRange [start; end_] in
  fst (ForLedger c q seq log) =
    with_sql (sq.Where (sql q) part) (with_Err None q) /\
  (forall r, sq.holds part r = true <-> start <= HistoryOperationID r < end_) /\
  (toid.Laws c -> GoInt.is_int32 seq -> seq < GoInt.MaxInt32 ->
   toid.inDomain c (toid.mkID seq 0 0) ->
   toid.inDomain c (toid.mkID (seq + 1) 0 0) ->
   forall r, toid.isKey (HistoryOperationID r) ->
     (sq.holds part r = true <-> LedgerSequence c r = seq) /\
     (LedgerSequence c r = seq + 1 \/ LedgerSequence c r = seq - 1 ->
      sq.holds part r = false)).
Proof.
  intros Hres start end_ part.
  split; [|split].
  - unfold ForLedger, bind, perform, ret. rewrite Hres. reflexivity.
  - intros r. apply holds_keyRange.
  - intros L Hseq Hmax Dlo Dhi r Hk.
    assert (Hiff : sq.holds part r = true <-> LedgerSequence c r = seq).
    { unfold part. rewrite holds_keyRange. unfold start, end_.
      rewrite add32_no_overflow
        by (unfold GoInt.is_int32, GoInt.MinInt32, GoInt.MaxInt32 in *; lia).
      rewrite (id_le_key c L _ _ Hk Dlo), (key_lt_id c L _ _ Hk Dhi).
      destruct (toid.fields_nonneg c L _ Hk) as [Ht Ho].
      unfold LedgerSequence, toid.lex_lt.
      cbn [toid.LedgerSequence toid.TransactionOrder toid.OperationOrder].
      lia. }
    split; [exact Hiff|].
    intros Hother. apply not_true_is_false. intros E.
    apply Hiff in E. lia.
Qed.

Lemma ID_ext (x y : toid.ID) :
  toid.LedgerSequence x = toid.LedgerSequence y ->
  toid.TransactionOrder x = toid.TransactionOrder y ->
  toid.OperationOrder x = toid.OperationOrder y -> x = y.
Proof. destruct x, y; cbn; intros; subst; reflexivity. Qed.

(** C7. [ForOperation id] adds one predicate, on the key range from
    [Parse id] to its [IncOperationOrder]; when [id] is a key that the
    codec reads and writes back, the predicate holds on exactly the rows
    with [id <= key < end], and when the increment is the next operation
    of the same transaction these are the rows of the single operation
    [id]. [ForTransaction hash], when the hash resolves to [t], adds one
    predicate on the range from [Parse t] to the same id with the
    transaction order incremented: exactly the rows with
    [t <= key < end], which for a transaction id (operation order 0) are
    the rows of all operations of that transaction. *)
Theorem ForOperation_ForTransaction_key_range (c : toid.Codec) (q : EffectsQ)
  (id : Z) (hash : string) (tx : Transaction) (log : list Call) :
  (let x := toid.Parse c id in
   let end_ := toid.ToInt64 c (toid.IncOperationOrder c x) in
   let part := sq.Expr sqlKeyRange [toid.ToInt64 c x; end_] in
   ForOperation c q id = with_sql (sq.Where (sql q) part) q /\
   (toid.ToInt64 c x = id ->
    forall r, sq.holds part r = true <-> id <= HistoryOperationID r < end_) /\
   (toid.Laws c -> toid.isKey id ->
    let next := toid.mkID (toid.LedgerSequence x) (toid.TransactionOrder x)
                  (toid.OperationOrder x + 1) in
    toid.IncOperationOrder c x = next -> toid.inDomain c next ->
    forall r, toid.isKey (HistoryOperationID r) ->
      (sq.holds part r = true <-> HistoryOperationID r = id)))
  /\
  (TransactionByHash (parent q) hash = inr tx ->
   let t := Transaction_ID tx in
   let x := toid.Parse c t in
   let end_ := toid.ToInt64 c
     (toid.mkID (toid.LedgerSequence x)
        (GoInt.add32 (toid.TransactionOrder x) 1) (toid.OperationOrder x)) in
   let part := sq.Expr sqlKeyRange [toid.ToInt64 c x; end_] in
   fst (ForTransaction c q hash log) =
     with_sql (sq.Where (sql q) part) (with_Err None q) /\
   (toid.ToInt64 c x = t ->
    forall r, sq.holds part r = true <-> t <= HistoryOperationID r < end_) /\
   (toid.Laws c -> toid.isKey t -> toid.OperationOrder x = 0 ->
    toid.TransactionOrder x + 1 <= GoInt.MaxInt32 ->
    toid.inDomain c
      (toid.mkID (toid.LedgerSequence x) (toid.TransactionOrder x + 1) 0) ->
    forall r, toid.isKey (HistoryOperationID r) ->
      (sq.holds part r = true <->
       toid.LedgerSequence (toid.Parse c (HistoryOperationID r))
         = toid.LedgerSequence x /\
       toid.TransactionOrder (toid.Parse c (HistoryOperationID r))
         = toid.TransactionOrder x))).
Proof.
  cbv zeta. split.
  - split; [reflexivity|]. split.
    + intros Hid r. rewrite holds_keyRange, Hid. reflexivity.
    + intros L Hk Hinc Dnext r Hr.
      rewrite holds_keyRange, (toid.parse_ToInt64 c L id Hk), Hinc.
      rewrite (key_lt_id c L _ _ Hr Dnext).
      rewrite (key_le_key c L _ _ Hk Hr). split.
      * intros [Hnlt Hlt]. apply (Parse_inj c L _ _ Hr Hk).
        unfold toid.lex_lt in *.
        cbn [toid.LedgerSequence toid.TransactionOrder toid.OperationOrder] in *.
        apply ID_ext; lia.
      * intros ->. unfold toid.lex_lt.
        cbn [toid.LedgerSequence toid.TransactionOrder toid.OperationOrder].
        lia.
  - intros Hres. split; [|split].
    + unfold ForTransaction, bind, perform, ret. rewrite Hres. reflexivity.
    + intros Ht r. rewrite holds_keyRange, Ht. reflexivity.
    + intros L Hk Hop Hmax Dnext r Hr.
      rewrite holds_keyRange, (toid.parse_ToInt64 c L _ Hk).
      destruct (toid.fields_nonneg c L _ Hk) as [Ht0 _].
      rewrite Hop.
      rewrite add32_no_overflow by (unfold GoInt.MinInt32; lia).
      rewrite (key_lt_id c L _ _ Hr Dnext).
      rewrite (key_le_key c L _ _ Hk Hr).
      destruct (toid.fields_nonneg c L _ Hr) as [Hrt Hro].
      unfold toid.lex_lt.
      cbn [toid.LedgerSequence toid.TransactionOrder toid.OperationOrder].
      lia.
Qed.

(** Ledger 5 of the sample database, with the packed codec. *)
Lemma ForLedger_key_range_witness :
  let q := Effects (mem.handle mem.sample) in
  let part := sq.Expr sqlKeyRange [21474836480; 25769803776] in
  sq.WhereParts (sql (fst (ForLedger toid.packed q 5 []))) = [part] /\
  sq.holds part (mem.row 7 25769807873 1) = false /\
  sq.holds part (mem.row 8 17179873281 1) = false /\
  sq.holds part (mem.row 7 21474840577 1) = true.
Proof.
  intros q part.
  destruct (ForLedger_key_range toid.packed q 5 (mkLedger 5) [] eq_refl)
    as (E & _ & H).
  assert (K : forall k, 0 <= k <= 9223372036854775807 -> toid.isKey k)
    by (intros k Hk; exact Hk).
  assert (Hint : GoInt.is_int32 5)
    by (unfold GoInt.is_int32, GoInt.MinInt32, GoInt.MaxInt32; lia).
  assert (Hmax : 5 < GoInt.MaxInt32) by (unfold GoInt.MaxInt32; lia).
  assert (K1 : toid.isKey 21474836480) by (apply K; lia).
  assert (K2 : toid.isKey 25769803776) by (apply K; lia).
  assert (R1 : toid.isKey 25769807873) by (apply K; lia).
  assert (R2 : toid.isKey 17179873281) by (apply K; lia).
  assert (R3 : toid.isKey 21474840577) by (apply K; lia).
  pose proof (H packed_laws Hint Hmax
                (packed_inDomain 21474836480 _ K1 eq_refl)
                (packed_inDomain 25769803776 _ K2 eq_refl)) as H'.
  split; [rewrite E; reflexivity|].
  split; [exact (proj2 (H' (mem.row 7 25769807873 1) R1) (or_introl eq_refl))|].
  split; [exact (proj2 (H' (mem.row 8 17179873281 1) R2) (or_intror eq_refl))|].
  exact (proj2 (proj1 (H' (mem.row 7 21474840577 1) R3)) eq_refl).
Defined.

(** Operation 21474840577 and transaction "t51" of the sample database. *)
Lemma ForOperation_ForTransaction_key_range_witness :
  let q := Effects (mem.handle mem.sample) in
  let opPart := sq.Expr sqlKeyRange [21474840577; 21474840578] in
  let txPart := sq.Expr sqlKeyRange [21474840576; 21474844672] in
  (sq.WhereParts (sql (ForOperation toid.packed q 21474840577)) = [opPart] /\
   sq.holds opPart (mem.row 8 21474840577 2) = true) /\
  (sq.WhereParts (sql (fst (ForTransaction toid.packed q "t51" []))) = [txPart] /\
   sq.holds txPart (mem.row 7 21474840578 1) = true).
Proof.
  intros q opPart txPart.
  assert (K : forall k, 0 <= k <= 9223372036854775807 -> toid.isKey k)
    by (intros k Hk; exact Hk).
  assert (K1 : toid.isKey 21474840577) by (apply K; lia).
  assert (K2 : toid.isKey 21474840578) by (apply K; lia).
  assert (K3 : toid.isKey 21474840576) by (apply K; lia).
  assert (K4 : toid.isKey 21474844672) by (apply K; lia).
  assert (Hmax : 1 + 1 <= GoInt.MaxInt32) by (unfold GoInt.MaxInt32; lia).
  destruct (ForOperation_ForTransaction_key_range toid.packed q 21474840577
              "t51" (mkTransaction 21474840576) []) as [(E1 & _ & H1) Htx].
  destruct (Htx eq_refl) as (E2 & _ & H2).
  split; split.
  - rewrite E1. reflexivity.
  - exact (proj2 (H1 packed_laws K1 eq_refl
                    (packed_inDomain 21474840578 _ K2 eq_refl)
                    (mem.row 8 21474840577 2) K1) eq_refl).
  - rewrite E2. reflexivity.
  - exact (proj2 (H2 packed_laws K3 eq_refl Hmax
                    (packed_inDomain 21474844672 _ K4 eq_refl)
                    (mem.row 7 21474840578 1) K2) (conj eq_refl eq_refl)).
Defined.


(** ** Rows selected by a builder *)

Lemma selects_Where (b : sq.SelectBuilder) (p : sq.wherePart) (r : Effect) :
  sq.selects (sq.Where b p) r = sq.selects b r && sq.holds p r.
Proof.
  unfold sq.selects. cbn. rewrite forallb_app. cbn.
  rewrite andb_true_r. reflexivity.
Qed.

Lemma selects_OrderBy (b : sq.SelectBuilder) (t : list (sq.column * sq.direction))
  (r : Effect) : sq.selects (sq.OrderBy b t) r = sq.selects b r.
Proof. reflexivity. Qed.

Lemma selects_Limit (b : sq.SelectBuilder) (n : Z) (r : Effect) :
  sq.selects (sq.Limit b n) r = sq.selects b r.
Proof. reflexivity. Qed.

(** ** Page *)

Lemma clamp_min (idx : Z) :
  (if idx >? GoInt.MaxInt32 then GoInt.MaxInt32 else idx)
  = Z.min idx GoInt.MaxInt32.
Proof. rewrite Z.gtb_ltb. destruct (Z.ltb_spec GoInt.MaxInt32 idx); lia. Qed.

Lemma rowCompare_asc (x y : Effect) :
  sq.rowCompare [(sq.history_operation_id, sq.asc); (sq.order, sq.asc)] x y = Lt
  <-> keyLt x y.
Proof.
  unfold keyLt. cbn.
  destruct (Z.compare_spec (HistoryOperationID x) (HistoryOperationID y));
    destruct (Z.compare_spec (Order x) (Order y));
    split; intros Hlt; try discriminate; try reflexivity; lia.
Qed.

Lemma rowCompare_desc (x y : Effect) :
  sq.rowCompare [(sq.history_operation_id, sq.desc); (sq.order, sq.desc)] x y = Lt
  <-> keyLt y x.
Proof.
  unfold keyLt. cbn.
  destruct (Z.compare_spec (HistoryOperationID y) (HistoryOperationID x));
    destruct (Z.compare_spec (Order y) (Order x));
    split; intros Hlt; try discriminate; try reflexivity; lia.
Qed.

Lemma Page_asc (dec : db2.CursorDecoder) (q : EffectsQ) (p : db2.PageQuery)
  (major minor : Z) :
  Err q = None -> dec p db2.DefaultPairSep = inr (major, minor) ->
  db2.Order p = "asc" ->
  Page dec q p =
  with_sql
    (sq.Limit
       (sq.OrderBy
          (sq.Where (sql q)
             (sq.Expr sqlPageAsc
                [major; major; major; Z.min minor GoInt.MaxInt32]))
          [(sq.history_operation_id, sq.asc); (sq.order, sq.asc)])
       (db2.Limit p)) q.
Proof.
  intros He Hd Ho. unfold Page. rewrite He, Hd, Ho, clamp_min. reflexivity.
Qed.

Lemma Page_desc (dec : db2.CursorDecoder) (q : EffectsQ) (p : db2.PageQuery)
  (major minor : Z) :
  Err q = None -> dec p db2.DefaultPairSep = inr (major, minor) ->
  db2.Order p = "desc" ->
  Page dec q p =
  with_sql
    (sq.Limit
       (sq.OrderBy
          (sq.Where (sql q)
             (sq.Expr sqlPageDesc
                [major; major; major; Z.min minor GoInt.MaxInt32]))
          [(sq.history_operation_id, sq.desc); (sq.order, sq.desc)])
       (db2.Limit p)) q.
Proof.
  intros He Hd Ho. unfold Page. rewrite He, Hd, Ho, clamp_min. reflexivity.
Qed.

Lemma Page_other_order (dec : db2.CursorDecoder) (q : EffectsQ)
  (p : db2.PageQuery) (major minor : Z) :
  Err q = None -> dec p db2.DefaultPairSep = inr (major, minor) ->
  db2.Order p <> "asc" -> db2.Order p <> "desc" ->
  Page dec q p = with_sql (sq.Limit (sql q) (db2.Limit p)) q.
Proof.
  intros He Hd Ha Hb. unfold Page. rewrite He, Hd.
  apply String.eqb_neq in Ha, Hb. rewrite Ha, Hb. reflexivity.
Qed.

(** C3. For a cursor (major, minor), where minor is the decoded value cut
    at the largest [int32]: with direction "asc"
    [Page] adds a predicate that holds on exactly the rows whose
    (history_operation_id, order) is strictly above (major, minor), and
    orders by both columns ascending; with "desc", exactly the rows
    strictly below, ordered descending. The predicate is the one part
    added to the WHERE clause of the builder and the two columns are the
    terms added to its ORDER BY clause, history_operation_id first; on a
    builder that had no ORDER BY term the rows come out in increasing
    order of the pair for "asc" and in decreasing order for "desc". In
    both cases the first conjunct
    of the predicate is the inequality on history_operation_id against
    major, and it is redundant: the second conjunct alone selects the same
    rows. *)
Theorem Page_keyset_predicate (dec : db2.CursorDecoder) (q : EffectsQ)
  (p : db2.PageQuery) (major minor0 : Z) :
  Err q = None ->
  dec p db2.DefaultPairSep = inr (major, minor0) ->
  let minor := Z.min minor0 GoInt.MaxInt32 in
  (db2.Order p = "asc" ->
   let part := sq.Expr sqlPageAsc [major; major; major; minor] in
   let terms := [(sq.history_operation_id, sq.asc); (sq.order, sq.asc)] in
   sql (Page dec q p) =
     sq.Limit (sq.OrderBy (sq.Where (sql q) part) terms) (db2.Limit p) /\
   (forall r, sq.holds part r = true <-> keyLt (effectAt major minor) r) /\
   (forall x y, sq.rowCompare terms x y = Lt <-> keyLt x y) /\
   (exists tie, sqlPageAsc = sq.And (sq.Cmp sq.history_operation_id sq.OpGe) tie /\
      forall r, sq.holds (sq.Expr tie [major; major; minor]) r = sq.holds part r) /\
   sq.WhereParts (sql (Page dec q p)) = (sq.WhereParts (sql q) ++ [part])%list /\
   sq.OrderBys (sql (Page dec q p)) = (sq.OrderBys (sql q) ++ terms)%list /\
   sq.LimitOf (sql (Page dec q p)) = Some (db2.Limit p) /\
   (forall r, sq.selects (sql (Page dec q p)) r = true <->
      sq.selects (sql q) r = true /\ keyLt (effectAt major minor) r) /\
   (sq.OrderBys (sql q) = [] ->
    forall x y, sq.rowCompare (sq.OrderBys (sql (Page dec q p))) x y = Lt
                <-> keyLt x y))
  /\
  (db2.Order p = "desc" ->
   let part := sq.Expr sqlPageDesc [major; major; major; minor] in
   let terms := [(sq.history_operation_id, sq.desc); (sq.order, sq.desc)] in
   sql (Page dec q p) =
     sq.Limit (sq.OrderBy (sq.Where (sql q) part) terms) (db2.Limit p) /\
   (forall r, sq.holds part r = true <-> keyLt r (effectAt major minor)) /\
   (forall x y, sq.rowCompare terms x y = Lt <-> keyLt y x) /\
   (exists tie, sqlPageDesc = sq.And (sq.Cmp sq.history_operation_id sq.OpLe) tie /\
      forall r, sq.holds (sq.Expr tie [major; major; minor]) r = sq.holds part r) /\
   sq.WhereParts (sql (Page dec q p)) = (sq.WhereParts (sql q) ++ [part])%list /\
   sq.OrderBys (sql (Page dec q p)) = (sq.OrderBys (sql q) ++ terms)%list /\
   sq.LimitOf (sql (Page dec q p)) = Some (db2.Limit p) /\
   (forall r, sq.selects (sql (Page dec q p)) r = true <->
      sq.selects (sql q) r = true /\ keyLt r (effectAt major minor)) /\
   (sq.OrderBys (sql q) = [] ->
    forall x y, sq.rowCompare (sq.OrderBys (sql (Page dec q p))) x y = Lt
                <-> keyLt y x)).
Proof.
  intros He Hd minor. split; intros Ho part terms.
  - pose proof (Page_asc dec q p major minor0 He Hd Ho) as E.
    fold minor in E. fold part in E. fold terms in E.
    split; [rewrite E; reflexivity|].
    split; [intros r; apply holds_pageAsc|].
    split; [apply rowCompare_asc|].
    split.
    { eexists. split; [reflexivity|].
      intros r. unfold part. cbn. zbool; try reflexivity; lia. }
    split; [rewrite E; reflexivity|].
    split; [rewrite E; reflexivity|].
    split; [rewrite E; reflexivity|].
    split.
    + intros r. rewrite E. cbn [sql with_sql].
      rewrite selects_Limit, selects_OrderBy, selects_Where.
      rewrite andb_true_iff. unfold part. rewrite holds_pageAsc. reflexivity.
    + intros Hnone x y. rewrite E. cbn [sql with_sql].
      cbn [sq.OrderBys sq.Limit sq.OrderBy sq.Where]. rewrite Hnone.
      apply rowCompare_asc.
  - pose proof (Page_desc dec q p major minor0 He Hd Ho) as E.
    fold minor in E. fold part in E. fold terms in E.
    split; [rewrite E; reflexivity|].
    split; [intros r; apply holds_pageDesc|].
    split; [apply rowCompare_desc|].
    split.
    { eexists. split; [reflexivity|].
      intros r. unfold part. cbn. zbool; try reflexivity; lia. }
    split; [rewrite E; reflexivity|].
    split; [rewrite E; reflexivity|].
    split; [rewrite E; reflexivity|].
    split.
    + intros r. rewrite E. cbn [sql with_sql].
      rewrite selects_Limit, selects_OrderBy, selects_Where.
      rewrite andb_true_iff. unfold part. rewrite holds_pageDesc. reflexivity.
    + intros Hnone x y. rewrite E. cbn [sql with_sql].
      cbn [sq.OrderBys sq.Limit sq.OrderBy sq.Where]. rewrite Hnone.
      apply rowCompare_desc.
Qed.

(** Paging the sample database upwards from (21474840577, 1) and
    downwards from (21474840577, 2): the clauses of the two queries, a
    row each selects, and the rows the database returns for them. *)
Lemma Page_keyset_predicate_witness :
  let q := Effects (mem.handle mem.sample) in
  let up := Page db2.CursorInt64Pair q (db2.mkPageQuery "21474840577-1" "asc" 2) in
  let down := Page db2.CursorInt64Pair q (db2.mkPageQuery "21474840577-2" "desc" 2) in
  (sq.WhereParts (sql up) =
     [sq.Expr sqlPageAsc [21474840577; 21474840577; 21474840577; 1]] /\
   sq.OrderBys (sql up) =
     [(sq.history_operation_id, sq.asc); (sq.order, sq.asc)] /\
   sq.LimitOf (sql up) = Some 2 /\
   sq.holds (sq.Expr sqlPageAsc [21474840577; 21474840577; 21474840577; 1])
     (mem.row 8 21474840577 2) = true /\
   sq.rowCompare (sq.OrderBys (sql up))
     (mem.row 8 21474840577 2) (mem.row 7 21474840578 1) = Lt /\
   sq.run (sql up) (mem.history_effects mem.sample) =
     [mem.row 8 21474840577 2; mem.row 7 21474840578 1]) /\
  (sq.WhereParts (sql down) =
     [sq.Expr sqlPageDesc [21474840577; 21474840577; 21474840577; 2]] /\
   sq.OrderBys (sql down) =
     [(sq.history_operation_id, sq.desc); (sq.order, sq.desc)] /\
   sq.LimitOf (sql down) = Some 2 /\
   sq.holds (sq.Expr sqlPageDesc [21474840577; 21474840577; 21474840577; 2])
     (mem.row 7 21474840577 1) = true /\
   sq.rowCompare (sq.OrderBys (sql down))
     (mem.row 7 21474840577 1) (mem.row 8 17179873281 1) = Lt /\
   sq.run (sql down) (mem.history_effects mem.sample) =
     [mem.row 7 21474840577 1; mem.row 8 17179873281 1]).
Proof.
  intros q up down. split.
  - destruct (Page_keyset_predicate db2.CursorInt64Pair q
                (db2.mkPageQuery "21474840577-1" "asc" 2) 21474840577 1
                eq_refl eq_refl) as [Hasc _].
    destruct (Hasc eq_refl)
      as (_ & Hrows & _ & _ & Hwhere & Horder & Hlimit & _ & Hsorted).
    split; [exact Hwhere|]. split; [exact Horder|]. split; [exact Hlimit|].
    split; [apply Hrows; unfold keyLt; cbn; lia|].
    split; [apply (Hsorted eq_refl); unfold keyLt; cbn; lia|].
    reflexivity.
  - destruct (Page_keyset_predicate db2.CursorInt64Pair q
                (db2.mkPageQuery "21474840577-2" "desc" 2) 21474840577 2
                eq_refl eq_refl) as [_ Hdesc].
    destruct (Hdesc eq_refl)
      as (_ & Hrows & _ & _ & Hwhere & Horder & Hlimit & _ & Hsorted).
    split; [exact Hwhere|]. split; [exact Horder|]. split; [exact Hlimit|].
    split; [apply Hrows; unfold keyLt; cbn; lia|].
    split; [apply (Hsorted eq_refl); unfold keyLt; cbn; lia|].
    reflexivity.
Defined.

(** With respect to the decoded minor value itself: ascending, the
    predicate is exact on every row whose order is an [int32]; descending,
    it is exact unless the minor value exceeds the largest [int32] and the
    row has that largest order. *)
Lemma Page_predicate_decoded_minor (major minor0 : Z) (r : Effect) :
  let minor := Z.min minor0 GoInt.MaxInt32 in
  (Order r <= GoInt.MaxInt32 ->
   (sq.holds (sq.Expr sqlPageAsc [major; major; major; minor]) r = true <->
    keyLt (effectAt major minor0) r)) /\
  (minor0 <= GoInt.MaxInt32 \/ Order r < GoInt.MaxInt32 ->
   (sq.holds (sq.Expr sqlPageDesc [major; major; major; minor]) r = true <->
    keyLt r (effectAt major minor0))).
Proof.
  intros minor. split; intros Hr.
  - rewrite holds_pageAsc. unfold keyLt, minor. cbn. lia.
  - rewrite holds_pageDesc. unfold keyLt, minor. cbn. lia.
Qed.

(** C8. When the cursor decodes to (major, minor), [Page] does not fail;
    the last argument of the pagination predicate is 2^31 - 1 when minor
    exceeds 2^31 - 1 and minor itself otherwise. *)
Theorem Page_clamps_minor (dec : db2.CursorDecoder) (q : EffectsQ)
  (p : db2.PageQuery) (major minor : Z) :
  Err q = None ->
  dec p db2.DefaultPairSep = inr (major, minor) ->
  Err (Page dec q p) = None /\
  exists idx : Z,
    (GoInt.MaxInt32 < minor -> idx = 2 ^ 31 - 1) /\
    (minor <= GoInt.MaxInt32 -> idx = minor) /\
    (db2.Order p = "asc" ->
     sq.WhereParts (sql (Page dec q p)) =
     (sq.WhereParts (sql q) ++
        [sq.Expr sqlPageAsc [major; major; major; idx]])%list) /\
    (db2.Order p = "desc" ->
     sq.WhereParts (sql (Page dec q p)) =
     (sq.WhereParts (sql q) ++
        [sq.Expr sqlPageDesc [major; major; major; idx]])%list).
Proof.
  intros He Hd. split.
  - unfold Page. rewrite He, Hd.
    destruct (String.eqb (db2.Order p) "asc");
      [|destruct (String.eqb (db2.Order p) "desc")]; cbn; exact He.
  - exists (Z.min minor GoInt.MaxInt32).
    split; [unfold GoInt.MaxInt32; lia|]. split; [lia|]. split; intros Ho.
    + rewrite (Page_asc dec q p major minor He Hd Ho). reflexivity.
    + rewrite (Page_desc dec q p major minor He Hd Ho). reflexivity.
Qed.

(** The cursor "21474840577-4294967296". *)
Lemma Page_clamps_minor_witness :
  let q := Effects (mem.handle mem.sample) in
  let wide := Page db2.CursorInt64Pair q
                (db2.mkPageQuery "21474840577-4294967296" "asc" 2) in
  Err wide = None /\
  sq.WhereParts (sql wide) =
    [sq.Expr sqlPageAsc [21474840577; 21474840577; 21474840577; 2147483647]].
Proof.
  intros q wide.
  destruct (Page_clamps_minor db2.CursorInt64Pair q
              (db2.mkPageQuery "21474840577-4294967296" "asc" 2)
              21474840577 4294967296 eq_refl eq_refl)
    as (He & idx & Hhigh & _ & Hasc & _).
  split; [exact He|].
  unfold wide. rewrite (Hasc eq_refl), Hhigh; [reflexivity|].
  unfold GoInt.MaxInt32. lia.
Defined.

(** ** ForLiquidityPool *)

Lemma ForLiquidityPool_asc (dec : db2.CursorDecoder) (q : EffectsQ)
  (p : db2.PageQuery) (id : string) (major minor : Z) (log : list Call) :
  Err q = None -> dec p db2.DefaultPairSep = inr (major, minor) ->
  db2.Order p = "asc" ->
  let query := holpQuery ++ holpAsc in
  let args := [ArgString id; ArgInt major; ArgInt (db2.Limit p)] in
  ForLiquidityPool dec q p id log =
  (match SelectRaw (parent q) query args with
   | inl err => with_Err (Some err) q
   | inr ids => with_sql (sq.Where (sql q) (sq.EqList sq.history_operation_id ids)) q
   end, (log ++ [CallSelectRaw query args])%list).
Proof.
  intros He Hd Ho query args. unfold ForLiquidityPool.
  rewrite He, Hd, Ho. cbn [String.eqb Ascii.eqb Bool.eqb].
  unfold bind, perform, ret. fold query args.
  destruct (SelectRaw (parent q) query args); reflexivity.
Qed.

Lemma ForLiquidityPool_desc (dec : db2.CursorDecoder) (q : EffectsQ)
  (p : db2.PageQuery) (id : string) (major minor : Z) (log : list Call) :
  Err q = None -> dec p db2.DefaultPairSep = inr (major, minor) ->
  db2.Order p = "desc" ->
  let query := holpQuery ++ holpDesc in
  let args := [ArgString id; ArgInt major; ArgInt (db2.Limit p)] in
  ForLiquidityPool dec q p id log =
  (match SelectRaw (parent q) query args with
   | inl err => with_Err (Some err) q
   | inr ids => with_sql (sq.Where (sql q) (sq.EqList sq.history_operation_id ids)) q
   end, (log ++ [CallSelectRaw query args])%list).
Proof.
  intros He Hd Ho query args. unfold ForLiquidityPool.
  rewrite He, Hd, Ho. cbn [String.eqb Ascii.eqb Bool.eqb].
  unfold bind, perform, ret. fold query args.
  destruct (SelectRaw (parent q) query args); reflexivity.
Qed.

(** A direction other than "asc" and "desc" is refused before any query. *)
Lemma ForLiquidityPool_other_order (dec : db2.CursorDecoder) (q : EffectsQ)
  (p : db2.PageQuery) (id : string) (major minor : Z) (log : list Call) :
  Err q = None -> dec p db2.DefaultPairSep = inr (major, minor) ->
  db2.Order p <> "asc" -> db2.Order p <> "desc" ->
  ForLiquidityPool dec q p id log =
  (with_Err (Some (errors.Errorf_invalid_paging_order (db2.Order p))) q, log).
Proof.
  intros He Hd Ha Hb. unfold ForLiquidityPool. rewrite He, Hd.
  apply String.eqb_neq in Ha, Hb. rewrite Ha, Hb. reflexivity.
Qed.

(** C9. On a builder without error and a page whose cursor decodes to
    (major, minor), [ForLiquidityPool] issues exactly one raw query, whose
    text is the lookup of the operation ids of the pool followed by
    [AND holp.history_operation_id >= ? ORDER BY holp.history_operation_id
    asc LIMIT ?] for "asc" and by
    [AND holp.history_operation_id <= ? ORDER BY holp.history_operation_id
    desc LIMIT ?] for "desc", bound to the pool id, to major and to
    the limit of the page. When the lookup returns [ids] the builder gets
    the membership predicate of history_operation_id in [ids]; [Page] with
    the same page then adds the pagination predicate of the same direction
    on the same major key, the ordering of the same direction, and the
    same limit. *)
Theorem ForLiquidityPool_subordinate_lookup (dec : db2.CursorDecoder)
  (q : EffectsQ) (p : db2.PageQuery) (id : string) (major minor : Z)
  (log : list Call) (direction : string) (query : string)
  (pagePart : sq.cond) (pageTerms : list (sq.column * sq.direction)) :
  Err q = None ->
  dec p db2.DefaultPairSep = inr (major, minor) ->
  db2.Order p = direction ->
  (direction = "asc" /\
   query =
     ("SELECT holp.history_operation_id"
      ++ String "010"%char (String "009"%char
           "FROM history_operation_liquidity_pools holp")
      ++ String "010"%char (String "009"%char
           "WHERE holp.history_liquidity_pool_id = (SELECT id FROM history_liquidity_pools WHERE liquidity_pool_id =  ?)")
      ++ String "010"%char (String "009"%char
           "AND holp.history_operation_id >= ? ORDER BY holp.history_operation_id asc LIMIT ?")) /\
   pagePart = sqlPageAsc /\
   pageTerms = [(sq.history_operation_id, sq.asc); (sq.order, sq.asc)]) \/
  (direction = "desc" /\
   query =
     ("SELECT holp.history_operation_id"
      ++ String "010"%char (String "009"%char
           "FROM history_operation_liquidity_pools holp")
      ++ String "010"%char (String "009"%char
           "WHERE holp.history_liquidity_pool_id = (SELECT id FROM history_liquidity_pools WHERE liquidity_pool_id =  ?)")
      ++ String "010"%char (String "009"%char
           "AND holp.history_operation_id <= ? ORDER BY holp.history_operation_id desc LIMIT ?")) /\
   pagePart = sqlPageDesc /\
   pageTerms = [(sq.history_operation_id, sq.desc); (sq.order, sq.desc)]) ->
  let args := [ArgString id; ArgInt major; ArgInt (db2.Limit p)] in
  let q' := fst (ForLiquidityPool dec q p id log) in
  snd (ForLiquidityPool dec q p id log) = (log ++ [CallSelectRaw query args])%list /\
  forall ids : list Z,
    SelectRaw (parent q) query args = inr ids ->
    let member := sq.EqList sq.history_operation_id ids in
    q' = with_sql (sq.Where (sql q) member) q /\
    (forall r, sq.holds member r = true <-> In (HistoryOperationID r) ids) /\
    sq.WhereParts (sql (Page dec q' p)) =
      (sq.WhereParts (sql q) ++
       [member;
        sq.Expr pagePart [major; major; major; Z.min minor GoInt.MaxInt32]])%list /\
    sq.OrderBys (sql (Page dec q' p)) = (sq.OrderBys (sql q) ++ pageTerms)%list /\
    sq.LimitOf (sql (Page dec q' p)) = Some (db2.Limit p).
Proof.
  intros He Hd Ho Hcase args q'.
  destruct Hcase as [(-> & Hq & -> & ->)|(-> & Hq & -> & ->)].
  - assert (Eq : query = holpQuery ++ holpAsc) by (rewrite Hq; reflexivity).
    clear Hq. subst query.
    unfold q'. rewrite (ForLiquidityPool_asc dec q p id major minor log He Hd Ho).
    cbn [fst snd]. split; [reflexivity|]. intros ids Hids. cbv zeta.
    fold args. rewrite Hids.
    split; [reflexivity|]. split; [intros r; apply (holds_EqList sq.history_operation_id)|].
    rewrite (Page_asc dec (with_sql _ q) p major minor He Hd Ho). cbn.
    rewrite <- app_assoc. repeat split; reflexivity.
  - assert (Eq : query = holpQuery ++ holpDesc) by (rewrite Hq; reflexivity).
    clear Hq. subst query.
    unfold q'. rewrite (ForLiquidityPool_desc dec q p id major minor log He Hd Ho).
    cbn [fst snd]. split; [reflexivity|]. intros ids Hids. cbv zeta.
    fold args. rewrite Hids.
    split; [reflexivity|]. split; [intros r; apply (holds_EqList sq.history_operation_id)|].
    rewrite (Page_desc dec (with_sql _ q) p major minor He Hd Ho). cbn.
    rewrite <- app_assoc. repeat split; reflexivity.
Qed.

(** Pool "pool1" of the sample database, ascending from (21474840577, 1):
    the text of the query sent to the database, and the clauses of the
    outer query after [Page]. *)
Lemma ForLiquidityPool_subordinate_lookup_witness :
  let q := Effects (mem.handle mem.sample) in
  let p := db2.mkPageQuery "21474840577-1" "asc" 10 in
  let r := ForLiquidityPool db2.CursorInt64Pair q p "pool1" [] in
  snd r =
    [CallSelectRaw
       ("SELECT holp.history_operation_id"
        ++ String "010"%char (String "009"%char
             "FROM history_operation_liquidity_pools holp")
        ++ String "010"%char (String "009"%char
             "WHERE holp.history_liquidity_pool_id = (SELECT id FROM history_liquidity_pools WHERE liquidity_pool_id =  ?)")
        ++ String "010"%char (String "009"%char
             "AND holp.history_operation_id >= ? ORDER BY holp.history_operation_id asc LIMIT ?"))
       [ArgString "pool1"; ArgInt 21474840577; ArgInt 10]] /\
  sq.WhereParts (sql (Page db2.CursorInt64Pair (fst r) p)) =
    [sq.EqList sq.history_operation_id [21474840577; 25769807873];
     sq.Expr sqlPageAsc [21474840577; 21474840577; 21474840577; 1]] /\
  sq.OrderBys (sql (Page db2.CursorInt64Pair (fst r) p)) =
    [(sq.history_operation_id, sq.asc); (sq.order, sq.asc)].
Proof.
  intros q p r.
  destruct (ForLiquidityPool_subordinate_lookup db2.CursorInt64Pair q p
              "pool1" 21474840577 1 [] "asc" _ sqlPageAsc _
              eq_refl eq_refl eq_refl
              (or_introl (conj eq_refl (conj eq_refl (conj eq_refl eq_refl)))))
    as [Hlog Hids].
  split; [exact Hlog|].
  destruct (Hids [21474840577; 25769807873] eq_refl)
    as (_ & _ & Hparts & Horder & _).
  split; [exact Hparts | exact Horder].
Defined.

(** ** UnmarshalDetails *)




(** ** Errors latched in the builder *)

Lemma Page_latched (dec : db2.CursorDecoder) (q : EffectsQ)
  (p : db2.PageQuery) (e : error) :
  Err q = Some e -> Page dec q p = q.
Proof. intros He. unfold Page. rewrite He. reflexivity. Qed.

Lemma ForLiquidityPool_latched (dec : db2.CursorDecoder) (q : EffectsQ)
  (p : db2.PageQuery) (id : string) (e : error) (log : list Call) :
  Err q = Some e -> ForLiquidityPool dec q p id log = (q, log).
Proof. intros He. unfold ForLiquidityPool. rewrite He. reflexivity. Qed.

Lemma Select_latched (q : EffectsQ) (dest : list Effect) (e : error)
  (log : list Call) :
  Err q = Some e -> Select q dest log = ((q, dest, Some e), log).
Proof. intros He. unfold Select. rewrite He. reflexivity. Qed.

Lemma ForOperation_keeps_Err (c : toid.Codec) (q : EffectsQ) (id : Z) :
  Err (ForOperation c q id) = Err q /\
  sq.WhereParts (sql (ForOperation c q id)) <> sq.WhereParts (sql q).
Proof.
  split; [reflexivity|]. cbn. intros H.
  apply (f_equal (@List.length sq.wherePart)) in H.
  rewrite length_app in H. cbn in H. lia.
Qed.

(** The lookups of [ForAccount], [ForLedger] and [ForTransaction] are made
    whatever the builder holds, and their outcome replaces [Err]. *)
Lemma lookup_filters_overwrite_Err (c : toid.Codec) (q : EffectsQ)
  (log : list Call) :
  (forall aid,
     snd (ForAccount q aid log) = (log ++ [CallAccountByAddress aid])%list /\
     Err (fst (ForAccount q aid log)) =
       match AccountByAddress (parent q) aid with
       | inl e => Some e
       | inr _ => None
       end) /\
  (forall seq,
     snd (ForLedger c q seq log) = (log ++ [CallLedgerBySequence seq])%list /\
     Err (fst (ForLedger c q seq log)) =
       match LedgerBySequence (parent q) seq with
       | inl e => Some e
       | inr _ => None
       end) /\
  (forall hash,
     snd (ForTransaction c q hash log) = (log ++ [CallTransactionByHash hash])%list /\
     Err (fst (ForTransaction c q hash log)) =
       match TransactionByHash (parent q) hash with
       | inl e => Some e
       | inr _ => None
       end).
Proof.
  repeat split.
  - unfold ForAccount, bind, perform, ret.
    destruct (AccountByAddress (parent q) aid); reflexivity.
  - unfold ForAccount, bind, perform, ret.
    destruct (AccountByAddress (parent q) aid); reflexivity.
  - unfold ForLedger, bind, perform, ret.
    destruct (LedgerBySequence (parent q) seq); reflexivity.
  - unfold ForLedger, bind, perform, ret.
    destruct (LedgerBySequence (parent q) seq); reflexivity.
  - unfold ForTransaction, bind, perform, ret.
    destruct (TransactionByHash (parent q) hash); reflexivity.
  - unfold ForTransaction, bind, perform, ret.
    destruct (TransactionByHash (parent q) hash); reflexivity.
Qed.


(** C1, on the sample database. [ForAccount] with an unknown address
    latches the lookup error. [ForLedger 5] on that builder still runs its
    lookup, replaces the error by nil and adds its predicate; [Select]
    then issues the query, which has the ledger predicate only, and
    returns the rows of both accounts. [ForOperation] on the latched
    builder adds its predicate as well. *)
Theorem latched_error_cleared_by_ForLedger :
  let q0 := Effects (mem.handle mem.sample) in
  let s1 := ForAccount q0 "GMISSING" [] in
  let s2 := ForLedger toid.packed (fst s1) 5 (snd s1) in
  let s3 := Select (fst s2) [] (snd s2) in
  Err (fst s1) = Some mem.ErrNoRows /\
  Err (fst s2) = None /\
  snd s2 = [CallAccountByAddress "GMISSING"; CallLedgerBySequence 5] /\
  sq.WhereParts (sql (fst s2)) =
    [sq.Expr sqlKeyRange [21474836480; 25769803776]] /\
  snd (fst s3) = None /\
  snd s3 = (snd s2 ++ [CallSelect (sql (fst s2))])%list /\
  keysOf (snd (fst (fst s3))) =
    [(7, 21474840577, 1); (8, 21474840577, 2); (7, 21474840578, 1);
     (8, 21474844673, 1)] /\
  sq.WhereParts (sql (ForOperation toid.packed (fst s1) 21474840577)) =
    [sq.Expr sqlKeyRange [21474840577; 21474840578]].
Proof. cbv zeta. repeat split; reflexivity. Qed.

(** C2, on the sample database. [Page] with the direction "sideways" and
    the cursor "21474840577-1" leaves the builder without error, adds no
    predicate and no ordering, sets the limit, and [Select] issues the
    query; [ForLiquidityPool] with the same page refuses the direction
    before any query. *)
Theorem Page_accepts_unknown_direction :
  let q0 := Effects (mem.handle mem.sample) in
  let p := db2.mkPageQuery "21474840577-1" "sideways" 10 in
  let q := Page db2.CursorInt64Pair q0 p in
  let s := Select q [] [] in
  Err q = None /\
  sq.WhereParts (sql q) = [] /\
  sq.OrderBys (sql q) = [] /\
  sq.LimitOf (sql q) = Some 10 /\
  snd (fst s) = None /\
  snd s = [CallSelect (sql q)] /\
  List.length (snd (fst (fst s))) = 6%nat /\
  ForLiquidityPool db2.CursorInt64Pair q0 p "pool1" [] =
    (with_Err (Some (errors.New "invalid paging order: sideways")) q0, []).
Proof. cbv zeta. repeat split; reflexivity. Qed.

(* ================================================================== *)
(** * Further properties of the builder *)

(** ** Builders that extend a builder *)

Lemma extends_refl (q : EffectsQ) : extends q q.
Proof.
  repeat split. exists []. rewrite app_nil_r. reflexivity.
Qed.

Lemma extends_trans (a b c : EffectsQ) : extends a b -> extends b c -> extends a c.
Proof.
  intros (P1 & C1 & F1 & J1 & w1 & W1) (P2 & C2 & F2 & J2 & w2 & W2).
  repeat split; try congruence.
  exists (w1 ++ w2)%list. rewrite W2, W1, app_assoc. reflexivity.
Qed.

Ltac solve_extends :=
  repeat split; cbn;
  first [ exists (@nil sq.wherePart); rewrite app_nil_r; reflexivity
        | eexists; reflexivity ].

Lemma extends_Page (dec : db2.CursorDecoder) (q : EffectsQ) (p : db2.PageQuery) :
  extends q (Page dec q p).
Proof.
  unfold Page. destruct (Err q); [solve_extends|].
  destruct (dec p db2.DefaultPairSep) as [e|[op idx]]; [solve_extends|].
  destruct (String.eqb (db2.Order p) "asc");
    [|destruct (String.eqb (db2.Order p) "desc")]; solve_extends.
Qed.

(** Each call returns a builder that extends the one it was made on, and
    appends at most one call to the log, which is never the final query. *)
Lemma step_extends (c : toid.Codec) (dec : db2.CursorDecoder) (s : Step)
  (q : EffectsQ) (log : list Call) :
  extends q (fst (step c dec s q log)) /\
  exists calls, snd (step c dec s q log) = (log ++ calls)%list /\
                (List.length calls <= 1)%nat /\
                (forall x, In x calls -> forall b, x <> CallSelect b).
Proof.
  assert (H0 : exists calls : list Call,
             log = (log ++ calls)%list /\ (List.length calls <= 1)%nat /\
             (forall x, In x calls -> forall b, x <> CallSelect b)).
  { exists []. rewrite app_nil_r. cbn. repeat split; [lia|contradiction]. }
  assert (H1 : forall x, (forall b, x <> CallSelect b) ->
             exists calls : list Call,
               (log ++ [x])%list = (log ++ calls)%list /\
               (List.length calls <= 1)%nat /\
               (forall y, In y calls -> forall b, y <> CallSelect b)).
  { intros x Hx. exists [x]. cbn. repeat split; [lia|].
    intros y [<-|[]]. exact Hx. }
  destruct s; cbn [step].
  - unfold ForAccount, bind, perform, ret.
    destruct (AccountByAddress (parent q) aid); cbn [fst snd];
      (split; [solve_extends|apply H1; discriminate]).
  - unfold ForLedger, bind, perform, ret.
    destruct (LedgerBySequence (parent q) seq); cbn [fst snd];
      (split; [solve_extends|apply H1; discriminate]).
  - unfold ret. cbn [fst snd]. split; [|apply H0].
    unfold ForOperation. solve_extends.
  - unfold ForLiquidityPool.
    destruct (Err q); [split; [solve_extends|apply H0]|].
    destruct (dec page db2.DefaultPairSep) as [e|[op idx]];
      [split; [solve_extends|apply H0]|].
    destruct (String.eqb (db2.Order page) "asc");
      [|destruct (String.eqb (db2.Order page) "desc")];
      try (split; [solve_extends|apply H0]);
      unfold bind, perform, ret;
      match goal with
      | |- context [SelectRaw ?p ?x ?a] => destruct (SelectRaw p x a)
      end; cbn [fst snd]; (split; [solve_extends|apply H1; discriminate]).
  - unfold ForTransaction, bind, perform, ret.
    destruct (TransactionByHash (parent q) hash); cbn [fst snd];
      (split; [solve_extends|apply H1; discriminate]).
  - unfold ret. cbn [fst snd]. split; [apply extends_Page|apply H0].
Qed.

Lemma chain_cons (c : toid.Codec) (dec : db2.CursorDecoder) (s : Step)
  (rest : list Step) (q : EffectsQ) (log : list Call) :
  chain c dec (s :: rest) q log =
  chain c dec rest (fst (step c dec s q log)) (snd (step c dec s q log)).
Proof.
  cbn [chain]. unfold bind. destruct (step c dec s q log). reflexivity.
Qed.

Lemma extends_selects (q q' : EffectsQ) (r : Effect) :
  extends q q' -> sq.selects (sql q') r = true -> sq.selects (sql q) r = true.
Proof.
  intros (_ & _ & _ & _ & added & W). unfold sq.selects. rewrite W, forallb_app.
  intros H. apply andb_true_iff in H. apply H.
Qed.

(** X1. Whatever calls are chained on a builder, the builder returned has
    the same storage handle, columns, table and joins, its predicates are
    those of the start followed by the added ones, and it selects no row
    that the builder at the start did not select. *)
Theorem chain_never_widens (c : toid.Codec) (dec : db2.CursorDecoder)
  (steps : list Step) (q : EffectsQ) (log : list Call) :
  let q' := fst (chain c dec steps q log) in
  parent q' = parent q /\
  sq.Columns (sql q') = sq.Columns (sql q) /\
  sq.FromTable (sql q') = sq.FromTable (sql q) /\
  sq.Joins (sql q') = sq.Joins (sql q) /\
  (exists added, sq.WhereParts (sql q') = (sq.WhereParts (sql q) ++ added)%list) /\
  (forall r, sq.selects (sql q') r = true -> sq.selects (sql q) r = true).
Proof.
  cbv zeta.
  assert (H : extends q (fst (chain c dec steps q log))).
  { revert q log. induction steps as [|s rest IH]; intros q log.
    - apply extends_refl.
    - rewrite chain_cons. eapply extends_trans; [|apply IH].
      apply step_extends. }
  pose proof (fun r => extends_selects _ _ r H) as Hsel.
  destruct H as (P & C & F & J & W). repeat split; assumption.
Qed.

(** X2. A chain of calls appends to the log of storage calls, at most one
    call for each chained call, and never the final query. *)
Theorem chain_storage_calls (c : toid.Codec) (dec : db2.CursorDecoder)
  (steps : list Step) (q : EffectsQ) (log : list Call) :
  exists calls : list Call,
    snd (chain c dec steps q log) = (log ++ calls)%list /\
    (List.length calls <= List.length steps)%nat /\
    (forall x, In x calls -> forall b, x <> CallSelect b).
Proof.
  revert q log. induction steps as [|s rest IH]; intros q log.
  - exists []. cbn. rewrite app_nil_r. repeat split; [lia|contradiction].
  - rewrite chain_cons.
    destruct (step_extends c dec s q log) as (_ & c1 & E1 & L1 & N1).
    destruct (IH (fst (step c dec s q log)) (snd (step c dec s q log)))
      as (c2 & E2 & L2 & N2).
    exists (c1 ++ c2)%list. rewrite E2, E1, <- app_assoc.
    split; [reflexivity|]. split; [rewrite length_app; cbn; lia|].
    intros x Hin. apply in_app_or in Hin. destruct Hin; auto.
Qed.

(** ** Latched errors *)

Lemma chain_guarded_latched (c : toid.Codec) (dec : db2.CursorDecoder)
  (steps : list Step) (q : EffectsQ) (e : error) (log : list Call) :
  Err q = Some e -> forallb guarded steps = true ->
  chain c dec steps q log = (q, log).
Proof.
  intros He. revert log. induction steps as [|s rest IH]; intros log Hg;
    [reflexivity|].
  cbn [forallb] in Hg. apply andb_true_iff in Hg. destruct Hg as [Hs Hrest].
  rewrite chain_cons.
  assert (E : step c dec s q log = (q, log)).
  { destruct s; try discriminate; cbn [step].
    - apply (ForLiquidityPool_latched dec q page id e log He).
    - unfold ret. rewrite (Page_latched dec q page e He). reflexivity. }
  rewrite E. cbn [fst snd]. apply IH. assumption.
Qed.

(** X3. On a builder that holds an error, any chain of [Page] and
    [ForLiquidityPool] calls returns the builder and the log unchanged, and
    [Select] after it returns that error without a storage call. *)
Theorem guarded_calls_keep_latched_error (c : toid.Codec)
  (dec : db2.CursorDecoder) (steps : list Step) (q : EffectsQ) (e : error)
  (dest : list Effect) (log : list Call) :
  Err q = Some e ->
  forallb guarded steps = true ->
  chain c dec steps q log = (q, log) /\
  (let s := chain c dec steps q log in
   Select (fst s) dest (snd s) = ((q, dest, Some e), log)).
Proof.
  intros He Hg.
  rewrite (chain_guarded_latched c dec steps q e log He Hg). cbn [fst snd].
  split; [reflexivity|]. apply Select_latched. assumption.
Qed.

Lemma guarded_calls_keep_latched_error_witness :
  let q0 := Effects (mem.handle mem.sample) in
  let bad := db2.mkPageQuery "not-a-cursor" "asc" 10 in
  let good := db2.mkPageQuery "21474840577-1" "desc" 5 in
  let q := Page db2.CursorInt64Pair q0 bad in
  let s := chain toid.packed db2.CursorInt64Pair
             [StepForLiquidityPool good "pool1"; StepPage good] q [] in
  s = (q, []) /\
  Select (fst s) [] (snd s) = ((q, [], Some db2.ErrMalformedCursor), []).
Proof.
  intros q0 bad good q s.
  exact (guarded_calls_keep_latched_error toid.packed db2.CursorInt64Pair
           [StepForLiquidityPool good "pool1"; StepPage good] q
           db2.ErrMalformedCursor [] [] eq_refl eq_refl).
Defined.



(** ** Cursors that do not decode *)

(** X5. When the cursor does not decode, [Page] and [ForLiquidityPool]
    latch the decoder's error and leave the query untouched (no limit is
    set, no lookup is made), and [Select] returns that error without a
    storage call. *)
Theorem undecodable_cursor_is_latched (dec : db2.CursorDecoder) (q : EffectsQ)
  (p : db2.PageQuery) (id : string) (dest : list Effect) (e : error)
  (log : list Call) :
  Err q = None ->
  dec p db2.DefaultPairSep = inl e ->
  Page dec q p = with_Err (Some e) q /\
  ForLiquidityPool dec q p id log = (with_Err (Some e) q, log) /\
  Select (Page dec q p) dest log = ((with_Err (Some e) q, dest, Some e), log).
Proof.
  intros He Hd.
  assert (HP : Page dec q p = with_Err (Some e) q)
    by (unfold Page; rewrite He, Hd; reflexivity).
  split; [exact HP|]. split.
  - unfold ForLiquidityPool. rewrite He, Hd. reflexivity.
  - rewrite HP. apply Select_latched. reflexivity.
Qed.

Lemma undecodable_cursor_is_latched_witness :
  let q := Effects (mem.handle mem.sample) in
  let p := db2.mkPageQuery "abc-def" "asc" 10 in
  sq.LimitOf (sql (Page db2.CursorInt64Pair q p)) = None /\
  Select (Page db2.CursorInt64Pair q p) [] []
  = ((with_Err (Some db2.ErrMalformedCursor) q, [],
      Some db2.ErrMalformedCursor), []).
Proof.
  intros q p.
  destruct (undecodable_cursor_is_latched db2.CursorInt64Pair q p "pool1" []
              db2.ErrMalformedCursor [] eq_refl eq_refl) as (HP & _ & Hsel).
  split; [rewrite HP; reflexivity|exact Hsel].
Defined.

(** ** ForAccount *)

(** X6. [ForAccount] makes exactly the account lookup. When it resolves,
    the error is nil, ordering and limit are kept, and the rows selected
    are those selected before whose account id is the resolved id; when it
    fails, the builder is the one at the start with the lookup error. *)
Theorem ForAccount_filters_by_account (q : EffectsQ) (aid : string)
  (log : list Call) :
  let q' := fst (ForAccount q aid log) in
  snd (ForAccount q aid log) = (log ++ [CallAccountByAddress aid])%list /\
  (forall account, AccountByAddress (parent q) aid = inr account ->
     Err q' = None /\
     sq.OrderBys (sql q') = sq.OrderBys (sql q) /\
     sq.LimitOf (sql q') = sq.LimitOf (sql q) /\
     forall r, sq.selects (sql q') r = true <->
               sq.selects (sql q) r = true /\
               HistoryAccountID r = Account_ID account) /\
  (forall e, AccountByAddress (parent q) aid = inl e ->
     q' = with_Err (Some e) q).
Proof.
  cbv zeta. unfold ForAccount, bind, perform, ret.
  destruct (AccountByAddress (parent q) aid) as [e|account]; cbn [fst snd].
  - split; [reflexivity|]. split; [discriminate|].
    intros e' H. injection H as <-. reflexivity.
  - split; [reflexivity|]. split; [|discriminate].
    intros a H. injection H as <-.
    repeat split; try reflexivity.
    + cbn [sql with_sql with_Err] in H. rewrite selects_Where in H.
      apply andb_true_iff in H. apply H.
    + cbn [sql with_sql with_Err] in H. rewrite selects_Where in H.
      apply andb_true_iff in H. destruct H as [_ H]. cbn in H.
      apply Z.eqb_eq. assumption.
    + intros [H1 H2]. cbn [sql with_sql with_Err]. rewrite selects_Where, H1.
      cbn. apply Z.eqb_eq. assumption.
Qed.

(** ** ForLiquidityPool *)

(** X7. With a cursor that decodes and a direction "asc" or "desc",
    [ForLiquidityPool] makes exactly one raw query. If it fails the error
    is latched and the query is left as it was; if it returns [ids] the
    rows selected are those selected before whose operation id is in
    [ids], so that an empty result selects no row. *)
Theorem ForLiquidityPool_lookup_outcomes (dec : db2.CursorDecoder)
  (q : EffectsQ) (p : db2.PageQuery) (id : string) (major minor : Z)
  (log : list Call) :
  Err q = None ->
  dec p db2.DefaultPairSep = inr (major, minor) ->
  db2.Order p = "asc" \/ db2.Order p = "desc" ->
  let q' := fst (ForLiquidityPool dec q p id log) in
  exists query,
    let args := [ArgString id; ArgInt major; ArgInt (db2.Limit p)] in
    snd (ForLiquidityPool dec q p id log) = (log ++ [CallSelectRaw query args])%list /\
    (forall e, SelectRaw (parent q) query args = inl e ->
       q' = with_Err (Some e) q) /\
    (forall ids, SelectRaw (parent q) query args = inr ids ->
       Err q' = None /\
       (forall r, sq.selects (sql q') r = true <->
                  sq.selects (sql q) r = true /\ In (HistoryOperationID r) ids) /\
       (ids = [] -> forall r, sq.selects (sql q') r = false)).
Proof.
  intros He Hd Ho. cbv zeta.
  assert (Hsel : forall ids r,
            sq.selects (sq.Where (sql q) (sq.EqList sq.history_operation_id ids)) r = true <->
            sq.selects (sql q) r = true /\ In (HistoryOperationID r) ids).
  { intros ids r. rewrite selects_Where, andb_true_iff.
    rewrite (holds_EqList sq.history_operation_id). reflexivity. }
  destruct Ho as [Ho|Ho].
  - exists (holpQuery ++ holpAsc).
    rewrite (ForLiquidityPool_asc dec q p id major minor log He Hd Ho).
    cbn [fst snd]. split; [reflexivity|]. split.
    + intros e ->. reflexivity.
    + intros ids ->. split; [exact He|]. split; [apply Hsel|].
      intros -> r. apply not_true_is_false. intros H.
      apply Hsel in H. destruct H as [_ []].
  - exists (holpQuery ++ holpDesc).
    rewrite (ForLiquidityPool_desc dec q p id major minor log He Hd Ho).
    cbn [fst snd]. split; [reflexivity|]. split.
    + intros e ->. reflexivity.
    + intros ids ->. split; [exact He|]. split; [apply Hsel|].
      intros -> r. apply not_true_is_false. intros H.
      apply Hsel in H. destruct H as [_ []].
Qed.

Lemma ForLiquidityPool_lookup_outcomes_witness :
  let p := db2.mkPageQuery "21474840577-1" "asc" 10 in
  let down := ForLiquidityPool db2.CursorInt64Pair (Effects broken) p "pool1" [] in
  let none := ForLiquidityPool db2.CursorInt64Pair
                (Effects (mem.handle mem.sample)) p "pool9" [] in
  fst down = with_Err (Some ErrConnection) (Effects broken) /\
  sq.selects (sql (fst none)) (mem.row 7 21474840577 1) = false.
Proof.
  intros p down none. split.
  - destruct (ForLiquidityPool_lookup_outcomes db2.CursorInt64Pair
                (Effects broken) p "pool1" 21474840577 1 []
                eq_refl eq_refl (or_introl eq_refl)) as (query & Hlog & Herr & _).
    injection Hlog as <-. exact (Herr ErrConnection eq_refl).
  - destruct (ForLiquidityPool_lookup_outcomes db2.CursorInt64Pair
                (Effects (mem.handle mem.sample)) p "pool9" 21474840577 1 []
                eq_refl eq_refl (or_introl eq_refl)) as (query & Hlog & _ & Hok).
    injection Hlog as <-.
    destruct (Hok [] eq_refl) as (_ & _ & Hempty).
    exact (Hempty eq_refl (mem.row 7 21474840577 1)).
Defined.

(** ** Select *)

(** X8. On a builder without error [Select] makes exactly one storage call,
    with the query of the builder and the destination of the caller, and
    keeps that query. The error it returns and latches is the one the
    storage handle returned, and the destination is what the handle left
    in it, on success and on failure alike. After a failure a second
    [Select] returns the latched error again without a storage call and
    without handing its destination to the handle. *)
Theorem Select_runs_the_query_once (q : EffectsQ) (dest dest2 : list Effect)
  (log : list Call) :
  Err q = None ->
  let s := Select q dest log in
  let q' := fst (fst (fst s)) in
  let answer := Q_Select (parent q) (sql q) dest in
  snd s = (log ++ [CallSelect (sql q)])%list /\
  sql q' = sql q /\ parent q' = parent q /\
  Err q' = snd (fst s) /\
  snd (fst s) = snd answer /\
  snd (fst (fst s)) = fst answer /\
  (forall e, snd answer = Some e ->
     Select q' dest2 (snd s) = ((q', dest2, Some e), snd s)).
Proof.
  intros He. cbv zeta.
  assert (E1 : Select q dest log =
               ((with_Err (snd (Q_Select (parent q) (sql q) dest)) q,
                 fst (Q_Select (parent q) (sql q) dest),
                 snd (Q_Select (parent q) (sql q) dest)),
                (log ++ [CallSelect (sql q)])%list)).
  { unfold Select. rewrite He. unfold bind, perform, ret.
    destruct (Q_Select (parent q) (sql q) dest); reflexivity. }
  rewrite E1. cbn [fst snd].
  split; [reflexivity|]. split; [reflexivity|]. split; [reflexivity|].
  split; [reflexivity|]. split; [reflexivity|]. split; [reflexivity|].
  intros e Heq. rewrite Heq. apply Select_latched. reflexivity.
Qed.

Lemma Select_runs_the_query_once_witness :
  let q := Effects broken in
  let s := Select q [mem.row 7 21474840577 1] [] in
  snd s = [CallSelect selectEffect] /\
  snd (fst s) = Some ErrConnection /\
  Select (fst (fst (fst s))) [] (snd s)
  = ((fst (fst (fst s)), [], Some ErrConnection), [CallSelect selectEffect]).
Proof.
  intros q s.
  destruct (Select_runs_the_query_once q [mem.row 7 21474840577 1] [] []
              eq_refl) as (Hlog & _ & _ & _ & Herr & _ & Hagain).
  split; [exact Hlog|]. split; [exact Herr|].
  exact (Hagain ErrConnection eq_refl).
Defined.

(** ** Filters commute *)

Lemma selects_two_parts (b : sq.SelectBuilder) (p1 p2 : sq.wherePart)
  (r : Effect) :
  sq.selects (sq.Where (sq.Where b p1) p2) r =
  sq.selects (sq.Where (sq.Where b p2) p1) r.
Proof.
  rewrite !selects_Where, <- !andb_assoc. f_equal. apply andb_comm.
Qed.

(** What a filter call does depends on the storage handle and on its
    arguments only: it fails with an error, or adds one predicate. *)
Lemma filter_step_shape (c : toid.Codec) (dec : db2.CursorDecoder) (s : Step)
  (h : Q) :
  isFilter s = true ->
  (exists e, forall q log, parent q = h ->
     fst (step c dec s q log) = with_Err (Some e) q) \/
  (exists part, forall q log, parent q = h ->
     sql (fst (step c dec s q log)) = sq.Where (sql q) part /\
     (Err (fst (step c dec s q log)) = None \/
      Err (fst (step c dec s q log)) = Err q)).
Proof.
  intros Hs. destruct s; try discriminate; cbn [step].
  - destruct (AccountByAddress h aid) as [e|a] eqn:E.
    + left. exists e. intros q log <-.
      unfold ForAccount, bind, perform, ret. rewrite E. reflexivity.
    + right. eexists. intros q log <-.
      unfold ForAccount, bind, perform, ret. rewrite E. cbn. auto.
  - destruct (LedgerBySequence h seq) as [e|a] eqn:E.
    + left. exists e. intros q log <-.
      unfold ForLedger, bind, perform, ret. rewrite E. reflexivity.
    + right. eexists. intros q log <-.
      unfold ForLedger, bind, perform, ret. rewrite E. cbn. auto.
  - right. eexists. intros q log _. unfold ret, ForOperation. cbn. auto.
  - destruct (TransactionByHash h hash) as [e|a] eqn:E.
    + left. exists e. intros q log <-.
      unfold ForTransaction, bind, perform, ret. rewrite E. reflexivity.
    + right. eexists. intros q log <-.
      unfold ForTransaction, bind, perform, ret. rewrite E. cbn. auto.
Qed.

Lemma step_parent (c : toid.Codec) (dec : db2.CursorDecoder) (s : Step)
  (q : EffectsQ) (log : list Call) :
  parent (fst (step c dec s q log)) = parent q.
Proof. apply step_extends. Qed.

(** X9. Two of the filters [ForAccount], [ForLedger], [ForOperation] and
    [ForTransaction], chained in either order on a builder without error
    and both ending without error, select the same rows. *)
Theorem filters_commute (c : toid.Codec) (dec : db2.CursorDecoder)
  (s1 s2 : Step) (q : EffectsQ) (log : list Call) :
  isFilter s1 = true -> isFilter s2 = true ->
  Err q = None ->
  let q12 := fst (chain c dec [s1; s2] q log) in
  let q21 := fst (chain c dec [s2; s1] q log) in
  Err q12 = None -> Err q21 = None ->
  forall r, sq.selects (sql q12) r = sq.selects (sql q21) r.
Proof.
  intros F1 F2 He q12 q21 E12 E21 r. unfold q12, q21 in *.
  rewrite !chain_cons in *. cbn [chain ret fst snd] in *.
  set (a := step c dec s1 q log) in *.
  set (b := step c dec s2 q log) in *.
  pose proof (step_parent c dec s1 q log) as Pa. fold a in Pa.
  pose proof (step_parent c dec s2 q log) as Pb. fold b in Pb.
  destruct (filter_step_shape c dec s1 (parent q) F1) as [(e1 & H1)|(p1 & H1)].
  - (* s1 fails: it is last in q21 *)
    rewrite (H1 (fst b) (snd b) Pb) in E21. discriminate.
  - destruct (filter_step_shape c dec s2 (parent q) F2) as [(e2 & H2)|(p2 & H2)].
    + rewrite (H2 (fst a) (snd a) Pa) in E12. discriminate.
    + destruct (H1 q log eq_refl) as [S1 _]. fold a in S1.
      destruct (H2 q log eq_refl) as [S2 _]. fold b in S2.
      destruct (H2 (fst a) (snd a) Pa) as [S12 _].
      destruct (H1 (fst b) (snd b) Pb) as [S21 _].
      rewrite S12, S21, S1, S2. apply selects_two_parts.
Qed.

Lemma filters_commute_witness :
  let q := Effects (mem.handle mem.sample) in
  let q12 := fst (chain toid.packed db2.CursorInt64Pair
                    [StepForAccount "GALICE"; StepForLedger 5] q []) in
  let q21 := fst (chain toid.packed db2.CursorInt64Pair
                    [StepForLedger 5; StepForAccount "GALICE"] q []) in
  sq.WhereParts (sql q12) <> sq.WhereParts (sql q21) /\
  sq.selects (sql q12) (mem.row 7 21474840578 1)
  = sq.selects (sql q21) (mem.row 7 21474840578 1).
Proof.
  intros q q12 q21. split; [discriminate|].
  exact (filters_commute toid.packed db2.CursorInt64Pair
           (StepForAccount "GALICE") (StepForLedger 5) q []
           eq_refl eq_refl eq_refl eq_refl eq_refl (mem.row 7 21474840578 1)).
Defined.

(** ** Tokens and identifiers name one record *)

(** X10. Two records in the [int64] and [int32] ranges with the same
    paging token have the same operation id and the same order. *)
Theorem PagingToken_injective (a b : Effect) :
  GoInt.is_int64 (HistoryOperationID a) -> GoInt.is_int32 (Order a) ->
  GoInt.is_int64 (HistoryOperationID b) -> GoInt.is_int32 (Order b) ->
  PagingToken a = PagingToken b ->
  HistoryOperationID a = HistoryOperationID b /\ Order a = Order b.
Proof.
  intros Hoa Hra Hob Hrb E.
  assert (W : forall z, GoInt.is_int32 z -> GoInt.is_int64 z).
  { unfold GoInt.is_int32, GoInt.is_int64, GoInt.MinInt32, GoInt.MaxInt32,
      GoInt.MinInt64, GoInt.MaxInt64. lia. }
  pose proof (splitFields_token _ _ Hoa (W _ Hra)) as Ta.
  pose proof (splitFields_token _ _ Hob (W _ Hrb)) as Tb.
  unfold PagingToken in E. rewrite E, Tb in Ta. injection Ta as -> ->. auto.
Qed.

Lemma PagingToken_injective_witness :
  PagingToken (effectAt 42 1) <> PagingToken (effectAt 4 21) /\
  PagingToken (effectAt (-4) 2) <> PagingToken (effectAt 4 (-2)).
Proof.
  assert (R : forall o r, -100 <= o <= 100 -> -100 <= r <= 100 ->
              GoInt.is_int64 o /\ GoInt.is_int32 r).
  { unfold GoInt.is_int32, GoInt.is_int64, GoInt.MinInt32, GoInt.MaxInt32,
      GoInt.MinInt64, GoInt.MaxInt64. lia. }
  split; intros E.
  - destruct (R 42 1) as [A1 A2]; [lia|lia|]. destruct (R 4 21) as [B1 B2]; [lia|lia|].
    destruct (PagingToken_injective (effectAt 42 1) (effectAt 4 21) A1 A2 B1 B2 E)
      as [H _]. discriminate H.
  - destruct (R (-4) 2) as [A1 A2]; [lia|lia|]. destruct (R 4 (-2)) as [B1 B2]; [lia|lia|].
    destruct (PagingToken_injective (effectAt (-4) 2) (effectAt 4 (-2)) A1 A2 B1 B2 E)
      as [H _]. discriminate H.
Defined.

Lemma compare_refl (s : string) : String.compare s s = Eq.
Proof.
  induction s as [|c s IH]; [reflexivity|]. rewrite compare_cons_same. exact IH.
Qed.

Lemma length_append (s t : string) :
  String.length (s ++ t) = (String.length s + String.length t)%nat.
Proof. induction s; cbn; congruence. Qed.

(** X11. For records whose operation id and order are not negative, the
    identifier has exactly 30 characters with "-" at index 19, and two
    records with the same identifier have the same key. *)
Theorem ID_fixed_width_injective (a b : Effect) :
  0 <= HistoryOperationID a <= GoInt.MaxInt64 ->
  0 <= Order a <= GoInt.MaxInt32 ->
  0 <= HistoryOperationID b <= GoInt.MaxInt64 ->
  0 <= Order b <= GoInt.MaxInt32 ->
  String.length (ID a) = 30%nat /\
  String.get 19 (ID a) = Some "-"%char /\
  (ID a = ID b ->
   HistoryOperationID a = HistoryOperationID b /\ Order a = Order b).
Proof.
  intros Hoa Hra Hob Hrb.
  rewrite (ID_fixed a), (ID_fixed b) by assumption.
  split; [|split].
  - rewrite length_append. cbn [String.length].
    rewrite length_append, !fixedDigits_length. reflexivity.
  - cbn. reflexivity.
  - intros E.
    pose proof (compare_refl
                  (fmt.fixedDigits 19 (HistoryOperationID a) ++
                   String "-" (fmt.fixedDigits 10 (Order a) ++ ""))) as C.
    rewrite E in C at 2.
    unfold GoInt.MaxInt64, GoInt.MaxInt32 in *.
    rewrite compare_fixedDigits in C
      by (change (10 ^ Z.of_nat 19) with 10000000000000000000; lia).
    rewrite compare_cons_same in C.
    rewrite compare_fixedDigits in C
      by (change (10 ^ Z.of_nat 10) with 10000000000; lia).
    cbn [String.compare] in C.
    destruct (Z.compare_spec (HistoryOperationID a) (HistoryOperationID b));
      try discriminate.
    destruct (Z.compare_spec (Order a) (Order b)); try discriminate. auto.
Qed.

Lemma ID_fixed_width_injective_witness :
  String.length (ID (effectAt 9223372036854775807 2147483647)) = 30%nat /\
  ID (effectAt 42 1) <> ID (effectAt 4 21).
Proof.
  assert (R : forall o r, 0 <= o <= 9223372036854775807 -> 0 <= r <= 2147483647 ->
              0 <= o <= GoInt.MaxInt64 /\ 0 <= r <= GoInt.MaxInt32)
    by (unfold GoInt.MaxInt64, GoInt.MaxInt32; lia).
  destruct (R 9223372036854775807 2147483647) as [M1 M2]; [lia|lia|].
  destruct (R 42 1) as [A1 A2]; [lia|lia|].
  destruct (R 4 21) as [B1 B2]; [lia|lia|].
  split.
  - exact (proj1 (ID_fixed_width_injective
                    (effectAt 9223372036854775807 2147483647) (effectAt 42 1)
                    M1 M2 A1 A2)).
  - intros E.
    destruct (proj2 (proj2 (ID_fixed_width_injective (effectAt 42 1)
                              (effectAt 4 21) A1 A2 B1 B2)) E) as [H _].
    discriminate H.
Defined.

(** ** Paging from a record *)

Lemma selects_Page_asc (dec : db2.CursorDecoder) (q : EffectsQ)
  (p : db2.PageQuery) (major minor : Z) (r : Effect) :
  Err q = None -> dec p db2.DefaultPairSep = inr (major, minor) ->
  db2.Order p = "asc" ->
  (sq.selects (sql (Page dec q p)) r = true <->
   sq.selects (sql q) r = true /\
   keyLt (effectAt major (Z.min minor GoInt.MaxInt32)) r).
Proof.
  intros He Hd Ho. rewrite (Page_asc dec q p major minor He Hd Ho).
  cbn [sql with_sql]. rewrite selects_Limit, selects_OrderBy, selects_Where.
  rewrite andb_true_iff, holds_pageAsc. reflexivity.
Qed.

Lemma selects_Page_desc (dec : db2.CursorDecoder) (q : EffectsQ)
  (p : db2.PageQuery) (major minor : Z) (r : Effect) :
  Err q = None -> dec p db2.DefaultPairSep = inr (major, minor) ->
  db2.Order p = "desc" ->
  (sq.selects (sql (Page dec q p)) r = true <->
   sq.selects (sql q) r = true /\
   keyLt r (effectAt major (Z.min minor GoInt.MaxInt32))).
Proof.
  intros He Hd Ho. rewrite (Page_desc dec q p major minor He Hd Ho).
  cbn [sql with_sql]. rewrite selects_Limit, selects_OrderBy, selects_Where.
  rewrite andb_true_iff, holds_pageDesc. reflexivity.
Qed.

(** X12. When the cursor decodes to the key of a record whose order fits an
    [int32], the clamp changes nothing: ascending, [Page] selects exactly
    the rows selected before that come strictly after the record;
    descending, strictly before; the record itself is never selected. *)
Theorem Page_resumes_after_record (dec : db2.CursorDecoder) (q : EffectsQ)
  (p : db2.PageQuery) (last : Effect) :
  Err q = None ->
  Order last <= GoInt.MaxInt32 ->
  dec p db2.DefaultPairSep = inr (HistoryOperationID last, Order last) ->
  (db2.Order p = "asc" ->
   (forall r, sq.selects (sql (Page dec q p)) r = true <->
              sq.selects (sql q) r = true /\ keyLt last r) /\
   sq.selects (sql (Page dec q p)) last = false) /\
  (db2.Order p = "desc" ->
   (forall r, sq.selects (sql (Page dec q p)) r = true <->
              sq.selects (sql q) r = true /\ keyLt r last) /\
   sq.selects (sql (Page dec q p)) last = false).
Proof.
  intros He Hr Hd.
  assert (Hmin : Z.min (Order last) GoInt.MaxInt32 = Order last) by lia.
  split; intros Ho.
  - assert (H : forall r, sq.selects (sql (Page dec q p)) r = true <->
                          sq.selects (sql q) r = true /\ keyLt last r).
    { intros r. rewrite (selects_Page_asc dec q p _ _ r He Hd Ho), Hmin.
      unfold keyLt. cbn. reflexivity. }
    split; [exact H|]. apply not_true_is_false. intros Hs.
    apply H in Hs. destruct Hs as [_ Hs]. unfold keyLt in Hs. lia.
  - assert (H : forall r, sq.selects (sql (Page dec q p)) r = true <->
                          sq.selects (sql q) r = true /\ keyLt r last).
    { intros r. rewrite (selects_Page_desc dec q p _ _ r He Hd Ho), Hmin.
      unfold keyLt. cbn. reflexivity. }
    split; [exact H|]. apply not_true_is_false. intros Hs.
    apply H in Hs. destruct Hs as [_ Hs]. unfold keyLt in Hs. lia.
Qed.

Lemma Page_resumes_after_record_witness :
  let q := Effects (mem.handle mem.sample) in
  let last := mem.row 7 21474840577 1 in
  let p := db2.mkPageQuery (PagingToken last) "asc" 2 in
  sq.selects (sql (Page db2.CursorInt64Pair q p)) last = false /\
  sq.selects (sql (Page db2.CursorInt64Pair q p)) (mem.row 8 21474840577 2) = true.
Proof.
  intros q last p.
  assert (Hr : Order last <= GoInt.MaxInt32) by (unfold GoInt.MaxInt32; cbn; lia).
  destruct (Page_resumes_after_record db2.CursorInt64Pair q p last
              eq_refl Hr eq_refl) as [Hasc _].
  destruct (Hasc eq_refl) as [Hrows Hlast].
  split; [exact Hlast|].
  apply Hrows. split; [reflexivity|]. unfold keyLt. cbn. lia.
Defined.

(** X13. A minor value above the largest order: ascending, the whole operation
    of the cursor is skipped; descending, the rows of that operation are
    included except one of order 2^31 - 1. *)
Theorem Page_wide_minor_skips_operation (dec : db2.CursorDecoder)
  (q : EffectsQ) (p : db2.PageQuery) (major minor : Z) :
  Err q = None ->
  dec p db2.DefaultPairSep = inr (major, minor) ->
  GoInt.MaxInt32 <= minor ->
  (db2.Order p = "asc" ->
   forall r, Order r <= GoInt.MaxInt32 ->
     (sq.selects (sql (Page dec q p)) r = true <->
      sq.selects (sql q) r = true /\ major < HistoryOperationID r)) /\
  (db2.Order p = "desc" ->
   forall r, Order r <= GoInt.MaxInt32 ->
     (sq.selects (sql (Page dec q p)) r = true <->
      sq.selects (sql q) r = true /\
      (HistoryOperationID r < major \/
       (HistoryOperationID r = major /\ Order r <> GoInt.MaxInt32)))).
Proof.
  intros He Hd Hm.
  assert (Hmin : Z.min minor GoInt.MaxInt32 = GoInt.MaxInt32) by lia.
  split; intros Ho r Hr.
  - rewrite (selects_Page_asc dec q p _ _ r He Hd Ho), Hmin.
    unfold keyLt. cbn. split; intros [H1 H2]; (split; [assumption|lia]).
  - rewrite (selects_Page_desc dec q p _ _ r He Hd Ho), Hmin.
    unfold keyLt. cbn. split; intros [H1 H2]; (split; [assumption|lia]).
Qed.

Lemma Page_wide_minor_skips_operation_witness :
  let q := Effects (mem.handle mem.sample) in
  let p := db2.mkPageQuery "21474840577-9223372036854775807" "asc" 10 in
  sq.selects (sql (Page db2.CursorInt64Pair q p)) (mem.row 8 21474840577 2) = false /\
  sq.selects (sql (Page db2.CursorInt64Pair q p)) (mem.row 7 21474840578 1) = true.
Proof.
  intros q p.
  assert (Hm : GoInt.MaxInt32 <= 9223372036854775807)
    by (unfold GoInt.MaxInt32; lia).
  destruct (Page_wide_minor_skips_operation db2.CursorInt64Pair q p
              21474840577 9223372036854775807 eq_refl eq_refl Hm) as [Hasc _].
  assert (H32 : forall a o r, 0 <= r <= 2 -> Order (mem.row a o r) <= GoInt.MaxInt32)
    by (intros; unfold GoInt.MaxInt32; cbn; lia).
  split.
  - apply not_true_is_false. intros Hs.
    apply (Hasc eq_refl _ (H32 8 21474840577 2 ltac:(lia))) in Hs.
    destruct Hs as [_ Hs]. cbn in Hs. lia.
  - apply (Hasc eq_refl _ (H32 7 21474840578 1 ltac:(lia))).
    split; [reflexivity|]. cbn. lia.
Defined.

(** X14. For one cursor, a row is before it, at it, or after it: the two
    directions never select the same row, and miss only the cursor row. *)
Theorem Page_directions_partition (dec : db2.CursorDecoder) (q : EffectsQ)
  (up down : db2.PageQuery) (major minor : Z) (r : Effect) :
  Err q = None ->
  db2.Order up = "asc" -> db2.Order down = "desc" ->
  dec up db2.DefaultPairSep = inr (major, minor) ->
  dec down db2.DefaultPairSep = inr (major, minor) ->
  (sq.selects (sql (Page dec q up)) r = true ->
   sq.selects (sql (Page dec q down)) r = false) /\
  (sq.selects (sql q) r = true ->
   sq.selects (sql (Page dec q up)) r = false ->
   sq.selects (sql (Page dec q down)) r = false ->
   HistoryOperationID r = major /\ Order r = Z.min minor GoInt.MaxInt32).
Proof.
  intros He Hu Hdn Du Dd.
  pose proof (selects_Page_asc dec q up _ _ r He Du Hu) as A.
  pose proof (selects_Page_desc dec q down _ _ r He Dd Hdn) as D.
  unfold keyLt in A, D. cbn in A, D. split.
  - intros Hs. apply not_true_is_false. intros Hs'.
    apply A in Hs. apply D in Hs'. lia.
  - intros Hq Hn1 Hn2.
    assert (N1 : ~ (major < HistoryOperationID r \/
                    major = HistoryOperationID r /\
                    Z.min minor GoInt.MaxInt32 < Order r)).
    { intros H. assert (T : sq.selects (sql (Page dec q up)) r = true)
        by (apply A; split; assumption). congruence. }
    assert (N2 : ~ (HistoryOperationID r < major \/
                    HistoryOperationID r = major /\
                    Order r < Z.min minor GoInt.MaxInt32)).
    { intros H. assert (T : sq.selects (sql (Page dec q down)) r = true)
        by (apply D; split; assumption). congruence. }
    lia.
Qed.

Lemma Page_directions_partition_witness :
  let q := Effects (mem.handle mem.sample) in
  let up := db2.mkPageQuery "21474840577-1" "asc" 10 in
  let down := db2.mkPageQuery "21474840577-1" "desc" 10 in
  sq.selects (sql (Page db2.CursorInt64Pair q down)) (mem.row 8 21474840577 2) = false.
Proof.
  intros q up down.
  apply (Page_directions_partition db2.CursorInt64Pair q up down
           21474840577 1 (mem.row 8 21474840577 2)
           eq_refl eq_refl eq_refl eq_refl eq_refl).
  reflexivity.
Defined.

(** ** UnmarshalDetails: the paths without backfill *)

(** X15. Without valid details [UnmarshalDetails] returns nil and the
    destination as it was, whatever the decoder would do. When the decoder
    fails, its error is returned wrapped with "unmarshal effect details
    failed" and the destination is the one the decoder left: nothing is
    backfilled. *)
Theorem UnmarshalDetails_without_details_or_on_error
  (json_Unmarshal : Unmarshaler) (r : Effect) (dest : Dest) :
  (Valid (DetailsString r) = false ->
   UnmarshalDetails json_Unmarshal r dest = (dest, None)) /\
  (Valid (DetailsString r) = true ->
   forall local decoded e,
     json_Unmarshal (String' (DetailsString r)) dest = (local, decoded, Some e) ->
     UnmarshalDetails json_Unmarshal r dest =
     (decoded, Some (errors.Wrapped e "unmarshal effect details failed"))).
Proof.
  unfold UnmarshalDetails. split.
  - intros ->. reflexivity.
  - intros -> local decoded e ->. reflexivity.
Qed.

(** X16. After a successful unmarshal that leaves the local destination
    variable on the caller's struct, a trustline sponsorship destination
    never has an empty Type, and it is of the kind that was decoded. *)
Theorem UnmarshalDetails_type_never_empty (json_Unmarshal : Unmarshaler)
  (r : Effect) (dest decoded : Dest) (d : effects.TrustlineSponsorship) :
  Valid (DetailsString r) = true ->
  json_Unmarshal (String' (DetailsString r)) dest = (SamePointer, decoded, None) ->
  let out := fst (UnmarshalDetails json_Unmarshal r dest) in
  (out = TrustlineSponsorshipCreated d ->
   effects.Type_ d <> "" /\ exists d0, decoded = TrustlineSponsorshipCreated d0) /\
  (out = TrustlineSponsorshipUpdated d ->
   effects.Type_ d <> "" /\ exists d0, decoded = TrustlineSponsorshipUpdated d0) /\
  (out = TrustlineSponsorshipRemoved d ->
   effects.Type_ d <> "" /\ exists d0, decoded = TrustlineSponsorshipRemoved d0).
Proof.
  intros Hv Hj out.
  assert (Hne : forall s, getAssetTypeForCanonicalAsset s <> "").
  { intros s. unfold getAssetTypeForCanonicalAsset.
    destruct (Z.of_nat (String.length s) <=? 61); discriminate. }
  unfold out, UnmarshalDetails. rewrite Hv, Hj. cbn [negb errors.Wrap fst snd].
  destruct decoded as [x|x|x|kind payload];
    try destruct (String.eqb_spec (effects.Type_ x) "") as [E|N];
    (split; [|split]); intros Hk; try discriminate Hk;
    injection Hk as <-; cbn; eauto.
Qed.

Lemma UnmarshalDetails_type_never_empty_witness :
  let r := {| HistoryAccountID := 7; HistoryOperationID := 21474840577;
              Order := 1;
              DetailsString := {| String' := "{}"; Valid := true |} |} in
  let asset :=
    "ABCDEFGHIJKL:GAAAAAAAAAAAAAAAAAAAAAAAAAAAAAAAAAAAAAAAAAAAAAAAAAAAAAAAAAAA" in
  let long := {| effects.Type_ := ""; effects.Asset := asset |} in
  let filled := {| effects.Type_ := "credit_alphanum12"; effects.Asset := asset |} in
  fst (UnmarshalDetails unmarshalEmptyObject r (TrustlineSponsorshipUpdated long))
  = TrustlineSponsorshipUpdated filled /\
  effects.Type_ filled <> "".
Proof.
  intros r asset long filled. split; [reflexivity|].
  destruct (UnmarshalDetails_type_never_empty unmarshalEmptyObject r
              (TrustlineSponsorshipUpdated long)
              (TrustlineSponsorshipUpdated long) filled eq_refl eq_refl)
    as (_ & Hu & _).
  exact (proj1 (Hu eq_refl)).
Defined.

(** ** The key ranges are nested *)

Lemma id_lt_id (c : toid.Codec) (x y : toid.ID) :
  toid.Laws c -> toid.inDomain c x -> toid.inDomain c y ->
  (toid.ToInt64 c x < toid.ToInt64 c y <-> toid.lex_lt x y).
Proof.
  intros L Hx Hy. destruct (inDomain_key c L x Hx) as [Kx Px].
  rewrite (key_lt_id c L _ y Kx Hy), Px. reflexivity.
Qed.

(** X17. Under the laws of the codec, for an operation of a transaction of
    a ledger (ids within the codec, no field overflowing), every row
    selected by [ForOperation] is selected by [ForTransaction], and every
    row selected by [ForTransaction] is selected by [ForLedger]. *)
Theorem key_ranges_are_nested (c : toid.Codec) (q : EffectsQ) (id : Z)
  (hash : string) (tx : Transaction) (seq : Z) (ledger : Ledger)
  (txOrder opOrder : Z) (log1 log2 : list Call) :
  toid.Laws c ->
  TransactionByHash (parent q) hash = inr tx ->
  LedgerBySequence (parent q) seq = inr ledger ->
  toid.isKey id -> toid.isKey (Transaction_ID tx) ->
  toid.Parse c (Transaction_ID tx) = toid.mkID seq txOrder 0 ->
  toid.Parse c id = toid.mkID seq txOrder opOrder ->
  toid.IncOperationOrder c (toid.Parse c id) = toid.mkID seq txOrder (opOrder + 1) ->
  toid.inDomain c (toid.mkID seq txOrder (opOrder + 1)) ->
  toid.inDomain c (toid.mkID seq (txOrder + 1) 0) ->
  toid.inDomain c (toid.mkID seq 0 0) ->
  toid.inDomain c (toid.mkID (seq + 1) 0 0) ->
  GoInt.MinInt32 <= seq < GoInt.MaxInt32 -> txOrder < GoInt.MaxInt32 ->
  forall r,
    (sq.selects (sql (ForOperation c q id)) r = true ->
     sq.selects (sql (fst (ForTransaction c q hash log1))) r = true) /\
    (sq.selects (sql (fst (ForTransaction c q hash log1))) r = true ->
     sq.selects (sql (fst (ForLedger c q seq log2))) r = true).
Proof.
  intros L Htx Hled Kid Kt Pt Pid Hinc Dop Dtx Dl0 Dl1 Hseq HtxO r.
  destruct (toid.fields_nonneg c L id Kid) as [T0 O0].
  rewrite Pid in T0, O0. cbn in T0, O0.
  assert (Etx : fst (ForTransaction c q hash log1) =
                with_sql (sq.Where (sql q)
                  (sq.Expr sqlKeyRange
                     [Transaction_ID tx;
                      toid.ToInt64 c (toid.mkID seq (txOrder + 1) 0)]))
                  (with_Err None q)).
  { unfold ForTransaction, bind, perform, ret. rewrite Htx. cbn [fst].
    rewrite Pt. cbn [toid.LedgerSequence toid.TransactionOrder toid.OperationOrder].
    rewrite <- Pt, (toid.parse_ToInt64 c L _ Kt).
    rewrite add32_no_overflow by (unfold GoInt.MinInt32 in *; lia).
    reflexivity. }
  assert (Eled : fst (ForLedger c q seq log2) =
                 with_sql (sq.Where (sql q)
                   (sq.Expr sqlKeyRange
                      [toid.ToInt64 c (toid.mkID seq 0 0);
                       toid.ToInt64 c (toid.mkID (seq + 1) 0 0)]))
                   (with_Err None q)).
  { unfold ForLedger, bind, perform, ret. rewrite Hled. cbn [fst].
    rewrite add32_no_overflow by lia. reflexivity. }
  assert (Eop : sql (ForOperation c q id) =
                sq.Where (sql q)
                  (sq.Expr sqlKeyRange
                     [id; toid.ToInt64 c (toid.mkID seq txOrder (opOrder + 1))])).
  { unfold ForOperation. cbn [sql with_sql].
    rewrite Hinc, (toid.parse_ToInt64 c L _ Kid). reflexivity. }
  rewrite Etx, Eled, Eop. cbn [sql with_sql with_Err].
  rewrite !selects_Where, !andb_true_iff, !holds_keyRange.
  (* the bounds, compared through the ids *)
  assert (B1 : Transaction_ID tx <= id).
  { apply (key_le_key c L _ _ Kt Kid). rewrite Pt, Pid.
    unfold toid.lex_lt. cbn. lia. }
  assert (B2 : toid.ToInt64 c (toid.mkID seq txOrder (opOrder + 1)) <=
               toid.ToInt64 c (toid.mkID seq (txOrder + 1) 0)).
  { apply Z.le_ngt. rewrite (id_lt_id c _ _ L Dtx Dop).
    unfold toid.lex_lt. cbn. lia. }
  assert (B3 : toid.ToInt64 c (toid.mkID seq 0 0) <= Transaction_ID tx).
  { apply (id_le_key c L _ _ Kt Dl0). rewrite Pt.
    unfold toid.lex_lt. cbn. lia. }
  assert (B4 : toid.ToInt64 c (toid.mkID seq (txOrder + 1) 0) <=
               toid.ToInt64 c (toid.mkID (seq + 1) 0 0)).
  { apply Z.le_ngt. rewrite (id_lt_id c _ _ L Dl1 Dtx).
    unfold toid.lex_lt. cbn. lia. }
  split; intros [Hq Hr]; (split; [assumption|lia]).
Qed.

Lemma key_ranges_are_nested_witness :
  let q := Effects (mem.handle mem.sample) in
  let r := mem.row 8 21474840577 2 in
  sq.selects (sql (ForOperation toid.packed q 21474840577)) r = true /\
  sq.selects (sql (fst (ForTransaction toid.packed q "t51" []))) r = true /\
  sq.selects (sql (fst (ForLedger toid.packed q 5 []))) r = true.
Proof.
  intros q r.
  assert (K : forall k, 0 <= k <= 9223372036854775807 -> toid.isKey k)
    by (intros k Hk; exact Hk).
  assert (K1 : toid.isKey 21474840577) by (apply K; lia).
  assert (K2 : toid.isKey 21474840576) by (apply K; lia).
  assert (K3 : toid.isKey 21474840578) by (apply K; lia).
  assert (K4 : toid.isKey 21474844672) by (apply K; lia).
  assert (K5 : toid.isKey 21474836480) by (apply K; lia).
  assert (K6 : toid.isKey 25769803776) by (apply K; lia).
  assert (Hseq : GoInt.MinInt32 <= 5 < GoInt.MaxInt32)
    by (unfold GoInt.MinInt32, GoInt.MaxInt32; lia).
  assert (Htx : 1 < GoInt.MaxInt32) by (unfold GoInt.MaxInt32; lia).
  destruct (key_ranges_are_nested toid.packed q 21474840577 "t51"
              (mkTransaction 21474840576) 5 (mkLedger 5) 1 1 [] []
              packed_laws eq_refl eq_refl K1 K2 eq_refl eq_refl eq_refl
              (packed_inDomain 21474840578 _ K3 eq_refl)
              (packed_inDomain 21474844672 _ K4 eq_refl)
              (packed_inDomain 21474836480 _ K5 eq_refl)
              (packed_inDomain 25769803776 _ K6 eq_refl)
              Hseq Htx r) as [H1 H2].
  assert (Hop : sq.selects (sql (ForOperation toid.packed q 21474840577)) r = true)
    by reflexivity.
  split; [exact Hop|]. split; [exact (H1 Hop)|exact (H2 (H1 Hop))].
Defined.

Lemma UnmarshalDetails_without_details_or_on_error_witness :
  let empty := {| effects.Type_ := ""; effects.Asset := "USD:GALICE" |} in
  let dest := TrustlineSponsorshipRemoved empty in
  let cut := {| HistoryAccountID := 7; HistoryOperationID := 21474840577;
                Order := 1;
                DetailsString := {| String' := "{"; Valid := true |} |} in
  UnmarshalDetails unmarshalEmptyObject (mem.row 7 21474840577 1) dest
    = (dest, None) /\
  UnmarshalDetails unmarshalTruncated cut dest
    = (dest, Some (errors.Wrapped (errors.New "unexpected end of JSON input")
                     "unmarshal effect details failed")).
Proof.
  intros empty dest cut. split.
  - exact (proj1 (UnmarshalDetails_without_details_or_on_error
                    unmarshalEmptyObject (mem.row 7 21474840577 1) dest) eq_refl).
  - exact (proj2 (UnmarshalDetails_without_details_or_on_error
                    unmarshalTruncated cut dest) eq_refl SamePointer dest _ eq_refl).
Defined.

(** ** Page, applied again and with a later cursor *)

(** X18. [Page] applied a second time with the same page leaves the error
    and the limit as they are and selects the same rows, in every case
    (latched builder, cursor that does not decode, any direction). *)
Theorem Page_twice_selects_the_same (dec : db2.CursorDecoder) (q : EffectsQ)
  (p : db2.PageQuery) :
  let once := Page dec q p in
  let twice := Page dec once p in
  Err twice = Err once /\
  sq.LimitOf (sql twice) = sq.LimitOf (sql once) /\
  forall r, sq.selects (sql twice) r = sq.selects (sql once) r.
Proof.
  cbv zeta. destruct (Err q) as [e|] eqn:He.
  - rewrite (Page_latched dec q p e He), (Page_latched dec q p e He). auto.
  - destruct (dec p db2.DefaultPairSep) as [e|[major minor]] eqn:Hd.
    + assert (E : Page dec q p = with_Err (Some e) q)
        by (unfold Page; rewrite He, Hd; reflexivity).
      rewrite E, (Page_latched dec (with_Err (Some e) q) p e eq_refl). auto.
    + destruct (String.eqb_spec (db2.Order p) "asc") as [Ha|Ha];
        [|destruct (String.eqb_spec (db2.Order p) "desc") as [Hb|Hb]].
      * rewrite (Page_asc dec q p major minor He Hd Ha).
        rewrite (Page_asc dec (with_sql _ q) p major minor He Hd Ha).
        cbn [sql with_sql Err]. repeat split.
        intros r.
        repeat first [rewrite selects_Limit | rewrite selects_OrderBy
                     | rewrite selects_Where].
        rewrite <- andb_assoc, andb_diag. reflexivity.
      * rewrite (Page_desc dec q p major minor He Hd Hb).
        rewrite (Page_desc dec (with_sql _ q) p major minor He Hd Hb).
        cbn [sql with_sql Err]. repeat split.
        intros r.
        repeat first [rewrite selects_Limit | rewrite selects_OrderBy
                     | rewrite selects_Where].
        rewrite <- andb_assoc, andb_diag. reflexivity.
      * rewrite (Page_other_order dec q p major minor He Hd Ha Hb).
        rewrite (Page_other_order dec (with_sql _ q) p major minor He Hd Ha Hb).
        cbn [sql with_sql Err]. repeat split.
Qed.

(** X19. For two cursors that decode, the second not before the first:
    ascending, the rows selected from the second are selected from the
    first; descending, the rows selected from the first are selected from
    the second. *)
Theorem Page_later_cursor_selects_less (dec : db2.CursorDecoder) (q : EffectsQ)
  (p1 p2 : db2.PageQuery) (major1 minor1 major2 minor2 : Z) (r : Effect) :
  Err q = None ->
  dec p1 db2.DefaultPairSep = inr (major1, minor1) ->
  dec p2 db2.DefaultPairSep = inr (major2, minor2) ->
  major1 < major2 \/ (major1 = major2 /\ minor1 <= minor2) ->
  (db2.Order p1 = "asc" -> db2.Order p2 = "asc" ->
   sq.selects (sql (Page dec q p2)) r = true ->
   sq.selects (sql (Page dec q p1)) r = true) /\
  (db2.Order p1 = "desc" -> db2.Order p2 = "desc" ->
   sq.selects (sql (Page dec q p1)) r = true ->
   sq.selects (sql (Page dec q p2)) r = true).
Proof.
  intros He D1 D2 Hle. split; intros O1 O2 Hs.
  - apply (selects_Page_asc dec q p1 _ _ r He D1 O1).
    apply (selects_Page_asc dec q p2 _ _ r He D2 O2) in Hs.
    destruct Hs as [Hq Hk]. split; [assumption|].
    unfold keyLt in *. cbn in *. lia.
  - apply (selects_Page_desc dec q p2 _ _ r He D2 O2).
    apply (selects_Page_desc dec q p1 _ _ r He D1 O1) in Hs.
    destruct Hs as [Hq Hk]. split; [assumption|].
    unfold keyLt in *. cbn in *. lia.
Qed.

Lemma Page_later_cursor_selects_less_witness :
  let q := Effects (mem.handle mem.sample) in
  let p1 := db2.mkPageQuery "21474840577-1" "asc" 2 in
  let p2 := db2.mkPageQuery "21474840577-2" "asc" 2 in
  sq.selects (sql (Page db2.CursorInt64Pair q p2)) (mem.row 7 21474840578 1) = true /\
  sq.selects (sql (Page db2.CursorInt64Pair q p1)) (mem.row 7 21474840578 1) = true.
Proof.
  intros q p1 p2.
  assert (Hle : 21474840577 < 21474840577 \/ (21474840577 = 21474840577 /\ 1 <= 2))
    by (right; split; [reflexivity|lia]).
  assert (H2 : sq.selects (sql (Page db2.CursorInt64Pair q p2))
                 (mem.row 7 21474840578 1) = true) by reflexivity.
  split; [exact H2|].
  exact (proj1 (Page_later_cursor_selects_less db2.CursorInt64Pair q p1 p2
                  21474840577 1 21474840577 2 (mem.row 7 21474840578 1)
                  eq_refl eq_refl eq_refl Hle) eq_refl eq_refl H2).
Defined.
